(** * geni_wrapper: the session client of [geni_wrapper/sdk.py]

    A shallow embedding of the two classes of [sdk.py], [GeniEvent] and
    [GeniSDK], and the properties of the OAuth session they implement.

    Modelling conventions.
    - Python values that cross the API (JSON bodies, request parameters,
      callback payloads) are [pyval], the values of JSON: [None], [bool],
      [int], [float], [str], [list] and [dict]; a [dict] is a
      [gmap string pyval].  Objects of other types, [bytes] for one, are
      not modelled, and no statement below says what the code does with
      them.
    - A [str] is its text in UTF-8.  [lstrip('/')], [in], [+] and [==]
      are exact on that; [upper()] is exact on ASCII text, and what is
      said about an upper-cased string is said of ASCII text.
    - A method is a computation in the monad [M]: it reads and writes the
      client object, the caller's dictionaries (a store addressed by
      reference, since [api] writes into the dictionary it is handed) and
      appends what it does to the outside world to a chronological trace.
      A method either returns or raises; the exceptions carry the text
      that [str(e)] gives in CPython.
    - Callbacks are caller code.  A callback is a handle compared by
      identity; calling it is recorded in the trace with its arguments and
      the call is taken to return without touching the client.
    - The network, the loopback listener and the browser are the
      environment: each operation takes the environment's answer as an
      argument ([net], [handshake]), so every statement quantifies over
      what the service and the browser do.
    - Of the standard library, [http.server] is modelled as far as
      [connect] depends on it.  Its reading of the request line and the
      headers is the environment's: a request arrives accepted, with its
      command and path, or refused with the error the library answers, or
      not at all.  What the library does then is in the model: an accepted
      request is served by the method named ['do_' + command], and
      answered 501 when the handler has none; every error answer is a
      response with that status and, but for a [HEAD], an error page.
      The lines the library logs to [stderr] are not in the trace.
      [parse_qs(urlparse(path).query)] is a parameter, [query_of]. *)

From Stdlib Require Import Strings.Ascii Floats.SpecFloat.
From stdpp Require Import base strings gmap list pretty.

#[local] Set Warnings "-register-all".
#[local] Open Scope string_scope.

(** ** Python values *)

Inductive pyval : Type :=
  | PNone
  | PBool (b : bool)
  | PInt (z : Z)
  | PFloat (f : spec_float)
  | PStr (s : string)
  | PList (l : list pyval)
  | PDict (d : gmap string pyval).

Abbreviation pydict := (gmap string pyval).

(** [bool(v)] *)
Definition py_truthy (v : pyval) : bool :=
  match v with
  | PNone => false
  | PBool b => b
  | PInt z => negb (Z.eqb z 0)
  | PFloat f => match f with S754_zero _ => false | _ => true end
  | PStr s => negb (bool_decide (s = ""))
  | PList l => match l with [] => false | _ => true end
  | PDict d => negb (bool_decide (d = ∅))
  end.

(** [v == s] for a string literal [s] *)
Definition py_eq_str (v : pyval) (s : string) : bool :=
  match v with
  | PStr s' => bool_decide (s' = s)
  | _ => false
  end.

(** Truthiness of an attribute that is [None] or a [str]
    ([self._app_id], [self._access_token]). *)
Definition truthy (o : option string) : bool :=
  match o with
  | Some s => negb (bool_decide (s = ""))
  | None => false
  end.

Definition py_of_opt (o : option string) : pyval :=
  match o with
  | Some s => PStr s
  | None => PNone
  end.

(** *** Strings *)

Definition upper_ascii (c : Ascii.ascii) : Ascii.ascii :=
  let n := Ascii.nat_of_ascii c in
  if (97 <=? n)%nat && (n <=? 122)%nat then Ascii.ascii_of_nat (n - 32) else c.

(** Text of ASCII characters only *)
Definition is_ascii (s : string) : bool :=
  forallb (fun c => (Ascii.nat_of_ascii c <? 128)%nat) (String.list_ascii_of_string s).

(** [s.upper()] of ASCII text: the letters [a] to [z] become [A] to [Z].
    On other text Python maps the case of every letter of Unicode, which
    this function does not. *)
Fixpoint upper (s : string) : string :=
  match s with
  | EmptyString => EmptyString
  | String c s' => String (upper_ascii c) (upper s')
  end.

(** [s.lstrip('/')] *)
Fixpoint lstrip_slash (s : string) : string :=
  match s with
  | String "/"%char s' => lstrip_slash s'
  | _ => s
  end.

(** [sub in s] for strings *)
Fixpoint is_substring (sub s : string) : bool :=
  String.prefix sub s ||
  match s with
  | EmptyString => false
  | String _ s' => is_substring sub s'
  end.

(** ['&'.join(parts)] and the like *)
Fixpoint join (sep : string) (parts : list string) : string :=
  match parts with
  | [] => ""
  | [p] => p
  | p :: rest => p ++ sep ++ join sep rest
  end.

(** ** Exceptions

    All of them derive from [Exception]; the payload is [str(e)]. *)

Inductive exn : Type :=
  | ValueError (msg : string)
  | TypeError (msg : string)
  | AttributeError (msg : string)
  | KeyError (msg : string)
  | RequestException (msg : string)
  | JSONDecodeError (msg : string).

Definition str_of_exn (e : exn) : string :=
  match e with
  | ValueError m | TypeError m | AttributeError m | KeyError m
  | RequestException m | JSONDecodeError m => m
  end.

(** The spec's ConfigurationError is the [ValueError] the client raises
    for a missing application identifier. *)
Definition is_ConfigurationError (e : exn) : bool :=
  match e with
  | ValueError _ => true
  | _ => false
  end.

(** A transport-level failure of an API call: the request itself failed
    ([requests] raised) or the body could not be decoded. *)
Definition is_transport_failure (e : exn) : bool :=
  match e with
  | RequestException _ | JSONDecodeError _ => true
  | _ => false
  end.

Inductive outcome (A : Type) : Type :=
  | Returned (a : A)
  | Raised (e : exn).
Arguments Returned {A} a.
Arguments Raised {A} e.

(** ** The outside world *)

(** A callback handle.  Python compares functions by identity. *)
Definition callback := nat.

(** What [requests.request(method, url, params=..., json=...)] is given. *)
Record http_request := {
  rq_method : string;
  rq_url : string;
  rq_params : option pydict;
  rq_json : option pydict
}.

(** [response.json()]: the decoded body, or the decoder's failure. *)
Inductive body : Type :=
  | Decoded (data : pyval)
  | Undecodable (msg : string).

(** What the network does with a request: [requests] raises, or a
    response comes back. *)
Inductive http_outcome : Type :=
  | NetworkError (msg : string)
  | Response (b : body).

Definition network := http_request -> http_outcome.

(** The one request the loopback listener serves, as the library has
    read it ([parse_request]).  It is accepted, and then [c] and [p] are
    [self.command] and [self.path], which the library takes from the
    first two words of the request line.  Or the library refuses it and
    answers an error itself: 400 for a request line it cannot read, a
    method other than [GET] without a version among them, 414 for an
    oversized line, 431 for oversized headers, 505 for a version from 2.0
    on; [c] is [self.command] at that point, the method when it is the
    headers that are refused and nothing, here the empty string, when it
    is the line.  Or the connection closes without a request. *)
Inductive request_line : Type :=
  | Accepted (c p : string)
  | Refused (c : string) (code : N)
  | NoRequest.

(** The method and the path of an accepted request, [self.command] and
    [self.path] where a handler is looked up for it.  A request that is
    not accepted has none: the empty string, which is no word of a
    request line. *)
Definition command (rq : request_line) : string :=
  match rq with
  | Accepted c _ => c
  | _ => ""
  end.

Definition path (rq : request_line) : string :=
  match rq with
  | Accepted _ p => p
  | _ => ""
  end.

(** The environment of one [connect()]: the ephemeral port the listener
    was given and the request that arrived on it. *)
Record handshake := {
  port : N;
  inbound : request_line
}.

(** What the client does to the outside world.  [SentHeaders code] is
    a response begun on the listener, [send_response(code)] to
    [end_headers()]; the library keeps the status line and the headers off
    the wire when the request came without a version.  [SentErrorPage
    code] is the page [send_error] writes after them, which tells the
    status, the library's message and its explanation.  Writing to the
    connection is taken to succeed. *)
Inductive effect : Type :=
  | Printed (args : list pyval)
  | Called (cb : callback) (args : list pyval)
  | Listening (p : N)
  | BrowserOpened (url : string)
  | SentHeaders (code : N)
  | SentBody (page : string)
  | SentErrorPage (code : N)
  | Requested (rq : http_request).

(** ** class GeniEvent *)

Module GeniEvent.

Record t := { _events : gmap string (list callback) }.

(** [GeniEvent()] *)
Definition __init__ : t := {| _events := ∅ |}.

(** [l.remove(x)]: drops the first occurrence of [x]; [None] stands for
    the [ValueError] of a list that does not hold [x]. *)
Fixpoint list_remove (x : callback) (l : list callback) : option (list callback) :=
  match l with
  | [] => None
  | y :: l' => if decide (x = y) then Some l' else cons y <$> list_remove x l'
  end.

Definition bind (event : string) (cb : callback) (self : t) : t :=
  let events :=
    match _events self !! event with
    | None => <[event := []]> (_events self)
    | Some _ => _events self
    end in
  {| _events := <[event := (default [] (events !! event) ++ [cb])%list]> events |}.

Definition unbind (event : string) (cb : option callback) (self : t) : outcome t :=
  match _events self !! event with
  | None => Returned self
  | Some subscribers =>
      match cb with
      | None => Returned {| _events := delete event (_events self) |}
      | Some c =>
          match list_remove c subscribers with
          | Some rest => Returned {| _events := <[event := rest]> (_events self) |}
          | None => Raised (ValueError "list.remove(x): x not in list")
          end
      end
  end.

(** [trigger(event, *args)]: the calls it makes, in order. *)
Definition trigger (event : string) (args : list pyval) (self : t) : list effect :=
  match _events self !! event with
  | None => []
  | Some subscribers => (fun cb => Called cb args) <$> subscribers
  end.

(** The subscriber list of an event, if it has one. *)
Definition subscribers (event : string) (self : t) : option (list callback) :=
  _events self !! event.

End GeniEvent.

(** ** class GeniSDK *)

(** [self._urls]: assigned once in [__init__] from a literal and only
    read afterwards. *)
Definition _urls : gmap string string :=
  {[ "api" := "/api";
     "connect" := "/oauth/authorize";
     "disconnect" := "/oauth/deauthorize";
     "logout" := "/oauth/logout" ]}.

Definition url_of (key : string) : string := default "" (_urls !! key).

Record GeniSDK := {
  _app_id : option string;
  _host : string;
  _cookies : bool;
  _logging : bool;
  _access_token : option string;
  _status : string;
  Event : GeniEvent.t
}.

Definition with_access_token (tok : option string) (self : GeniSDK) : GeniSDK :=
  {| _app_id := _app_id self; _host := _host self; _cookies := _cookies self;
     _logging := _logging self; _access_token := tok; _status := _status self;
     Event := Event self |}.

Definition with_status (st : string) (self : GeniSDK) : GeniSDK :=
  {| _app_id := _app_id self; _host := _host self; _cookies := _cookies self;
     _logging := _logging self; _access_token := _access_token self; _status := st;
     Event := Event self |}.

Definition with_Event (ev : GeniEvent.t) (self : GeniSDK) : GeniSDK :=
  {| _app_id := _app_id self; _host := _host self; _cookies := _cookies self;
     _logging := _logging self; _access_token := _access_token self;
     _status := _status self; Event := ev |}.

(** ** The machine and its monad *)

(** A reference to a dictionary owned by the caller. *)
Definition ref := nat.

Record machine := {
  this : GeniSDK;              (* the client object *)
  heap : list pydict;          (* the caller's dictionaries, by reference *)
  trace : list effect          (* what has been done so far, oldest first *)
}.

Definition M (A : Type) : Type := machine -> outcome A * machine.

Definition ret {A} (a : A) : M A := fun m => (Returned a, m).

Definition raise {A} (e : exn) : M A := fun m => (Raised e, m).

Definition M_bind {A B} (c : M A) (k : A -> M B) : M B :=
  fun m =>
    match c m with
    | (Returned a, m') => k a m'
    | (Raised e, m') => (Raised e, m')
    end.

Declare Scope py_scope.
Delimit Scope py_scope with py.
Notation "x <- c ;; k" := (M_bind c (fun x => k))
  (at level 100, c at next level, right associativity) : py_scope.
Notation "c ;; k" := (M_bind c (fun _ => k))
  (at level 100, right associativity) : py_scope.
#[local] Open Scope py_scope.

(** [try: body except Exception as e: handler(e)] *)
Definition try_except {A} (body : M A) (handler : exn -> M A) : M A :=
  fun m =>
    match body m with
    | (Returned a, m') => (Returned a, m')
    | (Raised e, m') => handler e m'
    end.

(** [try: body finally: final]: [final] runs either way, then the
    outcome of [body] stands, unless [final] itself raises. *)
Definition try_finally {A} (body : M A) (final : M unit) : M A :=
  fun m =>
    match body m with
    | (r, m') =>
        match final m' with
        | (Returned _, m'') => (r, m'')
        | (Raised e, m'') => (Raised e, m'')
        end
    end.

Definition get_self : M GeniSDK := fun m => (Returned (this m), m).

Definition modify_self (f : GeniSDK -> GeniSDK) : M unit :=
  fun m => (Returned tt, {| this := f (this m); heap := heap m; trace := trace m |}).

Definition emit (e : effect) : M unit :=
  fun m => (Returned tt, {| this := this m; heap := heap m; trace := (trace m ++ [e])%list |}).

Definition emit_all (es : list effect) : M unit :=
  fun m => (Returned tt, {| this := this m; heap := heap m; trace := (trace m ++ es)%list |}).

Definition when (b : bool) (c : M unit) : M unit := if b then c else ret tt.

(** [if callback: callback(...)] *)
Definition if_callback (cb : option callback) (args : list pyval) : M unit :=
  match cb with
  | Some c => emit (Called c args)
  | None => ret tt
  end.

(** *** Dictionaries held by reference *)

(** [{}] as a new object *)
Definition new_dict : M ref :=
  fun m => (Returned (length (heap m)),
            {| this := this m; heap := (heap m ++ [∅])%list; trace := trace m |}).

Definition read_dict (r : ref) : M pydict :=
  fun m => (Returned (default ∅ (heap m !! r)), m).

Definition write_dict (r : ref) (d : pydict) : M unit :=
  fun m => (Returned tt, {| this := this m; heap := <[r := d]> (heap m); trace := trace m |}).

(** [d.pop(key, dflt)] *)
Definition dict_pop (r : ref) (key : string) (dflt : pyval) : M pyval :=
  d <- read_dict r ;;
  match d !! key with
  | Some v => write_dict r (delete key d) ;; ret v
  | None => ret dflt
  end.

(** [d[key] = v] *)
Definition dict_setitem (r : ref) (key : string) (v : pyval) : M unit :=
  d <- read_dict r ;;
  write_dict r (<[key := v]> d).

(** *** Operations on Python values that can raise *)

Definition type_name (v : pyval) : string :=
  match v with
  | PNone => "NoneType"
  | PBool _ => "bool"
  | PInt _ => "int"
  | PFloat _ => "float"
  | PStr _ => "str"
  | PList _ => "list"
  | PDict _ => "dict"
  end.

(** [key in v] *)
Definition py_contains (key : string) (v : pyval) : M bool :=
  match v with
  | PDict d => ret (bool_decide (is_Some (d !! key)))
  | PList l => ret (existsb (fun x => py_eq_str x key) l)
  | PStr s => ret (is_substring key s)
  | _ => raise (TypeError ("argument of type '" ++ type_name v ++ "' is not iterable"))
  end.

(** [v[key]] for a string [key] *)
Definition py_getitem (v : pyval) (key : string) : M pyval :=
  match v with
  | PDict d =>
      match d !! key with
      | Some x => ret x
      | None => raise (KeyError ("'" ++ key ++ "'"))
      end
  | PList _ => raise (TypeError "list indices must be integers or slices, not str")
  | PStr _ => raise (TypeError "string indices must be integers, not 'str'")
  | _ => raise (TypeError ("'" ++ type_name v ++ "' object is not subscriptable"))
  end.

(** [v.get(key, dflt)] *)
Definition py_get (v : pyval) (key : string) (dflt : pyval) : M pyval :=
  match v with
  | PDict d => ret (default dflt (d !! key))
  | _ => raise (AttributeError ("'" ++ type_name v ++ "' object has no attribute 'get'"))
  end.

(** [v.upper()] *)
Definition py_upper (v : pyval) : M string :=
  match v with
  | PStr s => ret (upper s)
  | _ => raise (AttributeError ("'" ++ type_name v ++ "' object has no attribute 'upper'"))
  end.

(** *** The network *)

(** [requests.request(...)]: the request goes out; the call raises or
    hands back the response. *)
Definition request (net : network) (rq : http_request) : M body :=
  emit (Requested rq) ;;
  match net rq with
  | NetworkError msg => raise (RequestException msg)
  | Response b => ret b
  end.

(** [response.json()] *)
Definition json (b : body) : M pyval :=
  match b with
  | Decoded data => ret data
  | Undecodable msg => raise (JSONDecodeError msg)
  end.

(** *** Methods of GeniSDK *)

(** The object before [__init__] has run on it. *)
Definition blank : GeniSDK :=
  {| _app_id := None; _host := ""; _cookies := false; _logging := false;
     _access_token := None; _status := ""; Event := GeniEvent.__init__ |}.

Definition _log (args : list pyval) : M unit :=
  self <- get_self ;;
  when (_logging self) (emit (Printed (PStr "[Geni SDK]" :: args))).

Definition __init__ (app_id : option string) (host : string)
    (cookies logging : bool) : M unit :=
  modify_self (fun _ =>
    {| _app_id := app_id; _host := host; _cookies := cookies; _logging := logging;
       _access_token := None; _status := "unknown"; Event := GeniEvent.__init__ |}) ;;
  if negb (truthy app_id) then
    _log [PStr "Geni Python SDK requires an Application ID"] ;;
    raise (ValueError "Geni Python SDK requires an Application ID")
  else ret tt.

(** [GeniSDK(app_id, host, cookies, logging)], in a program whose
    dictionaries are [dicts]. *)
Definition construct (dicts : list pydict) (app_id : option string) (host : string)
    (cookies logging : bool) : outcome unit * machine :=
  __init__ app_id host cookies logging {| this := blank; heap := dicts; trace := [] |}.

(** [self.Event.trigger(event, *args)] *)
Definition Event_trigger (event : string) (args : list pyval) : M unit :=
  self <- get_self ;;
  emit_all (GeniEvent.trigger event args (Event self)).

(** [self.Event.bind(event, callback)] *)
Definition Event_bind (event : string) (cb : callback) : M unit :=
  modify_self (fun self => with_Event (GeniEvent.bind event cb (Event self)) self).

(** [self.Event.unbind(event, callback)] *)
Definition Event_unbind (event : string) (cb : option callback) : M unit :=
  self <- get_self ;;
  match GeniEvent.unbind event cb (Event self) with
  | Returned ev => modify_self (with_Event ev)
  | Raised e => raise e
  end.

Definition _set_status (status : string) : M unit :=
  self <- get_self ;;
  if negb (bool_decide (_status self = status)) then
    modify_self (with_status status) ;;
    Event_trigger "auth:statusChange" [PStr status]
  else ret tt.

(** The body of the [try] of [api], lines 223-235. *)
Definition api_try (net : network) (method url : string) (params : ref)
    (cb : option callback) : M pyval :=
  d <- read_dict params ;;
  response <- request net
    {| rq_method := method; rq_url := url;
       rq_params := if bool_decide (method = "GET") then Some d else None;
       rq_json := if bool_decide (method = "GET") then None else Some d |} ;;
  data <- json response ;;
  has_error <- py_contains "error" data ;;
  (if has_error : bool then
     err <- py_getitem data "error" ;;
     _log [PStr "API error:"; err] ;;
     e <- py_get data "error" (PDict ∅) ;;
     ty <- py_get e "type" PNone ;;
     when (py_eq_str ty "OAuthException")
       (modify_self (with_access_token None) ;;
        _set_status "unauthorized")
   else ret tt) ;;
  if_callback cb [data] ;;
  ret data.

(** [{'error': str(e)}] *)
Definition error_value (e : exn) : pyval :=
  PDict {[ "error" := PStr (str_of_exn e) ]}.

(** Its [except Exception as e], lines 237-241. *)
Definition api_except (cb : option callback) (e : exn) : M pyval :=
  let error := error_value e in
  if_callback cb [error] ;;
  ret error.

Definition api (net : network) (path : string) (params : option ref)
    (cb : option callback) : M pyval :=
  params <- match params with
            | Some r =>
                d <- read_dict r ;;
                if bool_decide (d = ∅) then new_dict else ret r
            | None => new_dict
            end ;;
  m <- dict_pop params "method" (PStr "GET") ;;
  method <- py_upper m ;;
  self <- get_self ;;
  when (truthy (_access_token self))
    (dict_setitem params "access_token" (py_of_opt (_access_token self))) ;;
  let url := _host self ++ url_of "api" ++ "/" ++ lstrip_slash path in
  try_except (api_try net method url params cb) (api_except cb).

(** The dictionary [get_status] builds and returns. *)
Definition status_dict (status : string) (access_token : option string) : pydict :=
  {[ "status" := PStr status; "access_token" := py_of_opt access_token ]}.

Definition get_status (net : network) (cb : option callback) : M pyval :=
  self <- get_self ;;
  response <- (if truthy (_access_token self) then
                 test_response <- api net "/user" None None ;;
                 err <- py_get test_response "error" PNone ;;
                 if negb (py_truthy err) then
                   self <- get_self ;;
                   ret ("authorized", _access_token self)
                 else
                   modify_self (with_access_token None) ;;
                   ret ("unknown", None)
               else ret ("unknown", None)) ;;
  _set_status (fst response) ;;
  let response := PDict (status_dict (fst response) (snd response)) in
  if_callback cb [response] ;;
  ret response.

Definition logout (net : network) (cb : option callback) : M unit :=
  self <- get_self ;;
  if negb (truthy (_app_id self)) then
    raise (ValueError "logout() called without an app id")
  else
    let url := _host self ++ url_of "logout" in
    let params : pydict := {[ "client_id" := py_of_opt (_app_id self) ]} in
    let params :=
      if truthy (_access_token self)
      then <["access_token" := py_of_opt (_access_token self)]> params
      else params in
    try_finally
      (request net {| rq_method := "GET"; rq_url := url;
                      rq_params := Some params; rq_json := None |} ;;
       ret tt)
      (modify_self (with_access_token None) ;;
       _set_status "unknown" ;;
       if_callback cb []).

(** *** connect() and its loopback listener *)

(** The dictionary left in [server.oauth_response]; a key that the
    dictionary does not have is [None] here. *)
Record oauth_result := {
  res_status : string;
  res_access_token : option string;
  res_error : option string
}.

Definition add_key (key : string) (v : option string) (d : pydict) : pydict :=
  match v with
  | Some s => <[key := PStr s]> d
  | None => d
  end.

(** The dictionary itself, as the callback receives it. *)
Definition dict_of_result (r : oauth_result) : pydict :=
  add_key "error" (res_error r)
    (add_key "access_token" (res_access_token r)
       {[ "status" := PStr (res_status r) ]}).

(** [{'status': 'unknown'}], the default of the [getattr] *)
Definition no_response : oauth_result :=
  {| res_status := "unknown"; res_access_token := None; res_error := None |}.

Record HTTPServer := {
  server_port : N;
  oauth_response : option oauth_result
}.

Definition set_oauth_response (r : oauth_result) (server : HTTPServer) : HTTPServer :=
  {| server_port := server_port server; oauth_response := Some r |}.

(** The methods class [OAuthHandler] defines; its base class
    [BaseHTTPRequestHandler] has no [do_*] method of its own. *)
Definition OAuthHandler_methods : list string := ["do_get"].

Definition close_page : string :=
  "<html><body><script>window.close()</script></body></html>".

Section Listener.

(** [parse_qs(urlparse(path).query)] of the standard library: the
    query parameters of a request path, each with its list of values. *)
Variable query_of : string -> gmap string (list string).

(** [OAuthHandler.do_get].  An exception inside the handler ends the
    request with nothing stored; the server reports it on [stderr] and
    [handle_request] returns.  [parse_qs] gives no empty list of values:
    [Some []] stands for a path on which [urlparse] raises, which it
    does after the headers, as the [[0]] of an empty list would. *)
Definition do_get (rq : request_line) (server : HTTPServer) : M HTTPServer :=
  emit (SentHeaders 200) ;;
  let query := query_of (path rq) in
  match query !! "access_token" with
  | Some (tok :: _) =>
      emit (SentBody close_page) ;;
      ret (set_oauth_response
             {| res_status := "authorized"; res_access_token := Some tok;
                res_error := None |} server)
  | Some [] => ret server
  | None =>
      emit (SentBody close_page) ;;
      ret (set_oauth_response
             {| res_status := "unknown"; res_access_token := None;
                res_error := Some "Authorization failed or was cancelled" |} server)
  end.

(** [send_error(code)] of the base handler, [c] being [self.command]:
    the response, and the error page unless the status allows no body or
    the request is a [HEAD]. *)
Definition send_error (c : string) (code : N) : M unit :=
  emit (SentHeaders code) ;;
  when ((200 <=? code)%N && negb (bool_decide (code ∈ [204; 205; 304]%N)) &&
        negb (bool_decide (c = "HEAD")))
    (emit (SentErrorPage code)).

(** [server.handle_request()] for the request that arrives
    ([handle_one_request] of the base handler).  A request the library
    refuses is answered with its error.  For an accepted one the base
    handler looks the serving method up by name, ['do_' + command], on the
    handler class, and answers 501 when the class has none. *)
Definition handle_request (rq : request_line) (server : HTTPServer) : M HTTPServer :=
  match rq with
  | NoRequest => ret server
  | Refused c code => send_error c code ;; ret server
  | Accepted c _ =>
      let mname := "do_" ++ c in
      if bool_decide (mname ∈ OAuthHandler_methods) then do_get rq server
      else send_error c 501 ;; ret server
  end.

Definition connect (h : handshake) (cb : option callback) : M unit :=
  self <- get_self ;;
  if negb (truthy (_app_id self)) then
    raise (ValueError "connect() called without an app id")
  else if truthy (_access_token self) then
    _log [PStr "connect() called when user is already connected"] ;;
    if_callback cb
      [PDict {[ "status" := PStr "authorized";
                "access_token" := py_of_opt (_access_token self) ]}]
  else
    let server := {| server_port := port h; oauth_response := None |} in
    emit (Listening (server_port server)) ;;
    let port := server_port server in
    let params :=
      [("response_type", "token");
       ("client_id", default "" (_app_id self));
       ("redirect_uri", "http://localhost:" ++ pretty port);
       ("display", "popup")] in
    let auth_url :=
      _host self ++ url_of "connect" ++ "?" ++
      join "&" ((fun kv => fst kv ++ "=" ++ snd kv) <$> params) in
    emit (BrowserOpened auth_url) ;;
    server <- handle_request (inbound h) server ;;
    let response := default no_response (oauth_response server) in
    (* the cookie branch under [if self._cookies] is [pass] *)
    when (bool_decide (res_status response = "authorized"))
      (modify_self (with_access_token (res_access_token response))) ;;
    _set_status (res_status response) ;;
    if_callback cb [PDict (dict_of_result response)].

(** *** Programs over the public interface *)

Inductive op : Type :=
  | Connect (h : handshake) (cb : option callback)
  | Get_status (net : network) (cb : option callback)
  | Logout (net : network) (cb : option callback)
  | Api (net : network) (path : string) (params : option ref) (cb : option callback)
  | Bind (event : string) (cb : callback)
  | Unbind (event : string) (cb : option callback).

Definition perform (o : op) : M unit :=
  match o with
  | Connect h cb => connect h cb
  | Get_status net cb => get_status net cb ;; ret tt
  | Logout net cb => logout net cb
  | Api net path params cb => api net path params cb ;; ret tt
  | Bind event cb => Event_bind event cb
  | Unbind event cb => Event_unbind event cb
  end.

(** One operation of the caller; whether it returned or raised, the
    caller goes on with the machine it left. *)
Definition step (m : machine) (o : op) : machine := snd (perform o m).

Definition run (ops : list op) (m : machine) : machine := foldl step m ops.

(** The machines at the operation boundaries of a program. *)
Fixpoint boundaries (ops : list op) (m : machine) : list machine :=
  m :: match ops with
       | [] => []
       | o :: ops' => boundaries ops' (step m o)
       end.

End Listener.

(** ** The session invariant *)

(** The stored token is non-empty only when the status is authorized. *)
Definition session_ok (self : GeniSDK) : Prop :=
  truthy (_access_token self) = true -> _status self = "authorized".

(** ** Vocabulary of the statements *)

(** The value [api] pops as the HTTP method: the ['method'] entry of the
    caller's dictionary, ['GET'] when there is no such entry or no
    dictionary. *)
Definition popped_method (params : option ref) (m : machine) : pyval :=
  match params with
  | Some r => default (PStr "GET") (default ∅ (heap m !! r) !! "method")
  | None => PStr "GET"
  end.

Definition is_str (v : pyval) : bool :=
  match v with
  | PStr _ => true
  | _ => false
  end.

(** The exception a network answer raises inside the [try] of [api],
    when the answer is a transport-level failure. *)
Definition failure_of (a : http_outcome) : option exn :=
  match a with
  | NetworkError msg => Some (RequestException msg)
  | Response (Undecodable msg) => Some (JSONDecodeError msg)
  | Response (Decoded _) => None
  end.


(** The operation failed with the ConfigurationError. *)
Definition raises_ConfigurationError {A} (o : outcome A) : bool :=
  match o with
  | Raised e => is_ConfigurationError e
  | Returned _ => false
  end.

(** The configuration a client is constructed with stays as it is. *)
Definition same_config (self self' : GeniSDK) : Prop :=
  _app_id self' = _app_id self /\ _host self' = _host self /\
  _cookies self' = _cookies self /\ _logging self' = _logging self.

(** The client after an API response has invalidated its token. *)
Definition demoted (self : GeniSDK) : GeniSDK :=
  with_status "unauthorized" (with_access_token None self).

(** What [_set_status] publishes: nothing when the status is the one
    already held, one round of the subscribers otherwise. *)
Definition published (status : string) (self : GeniSDK) : list effect :=
  if bool_decide (_status self = status) then []
  else GeniEvent.trigger "auth:statusChange" [PStr status] (Event self).

(** What [send_error] puts on the listener. *)
Definition error_answer (c : string) (code : N) : list effect :=
  SentHeaders code ::
  if (200 <=? code)%N && negb (bool_decide (code ∈ [204; 205; 304]%N)) &&
     negb (bool_decide (c = "HEAD"))
  then [SentErrorPage code] else [].

(** The status a returned [get_status] dictionary reports. *)
Definition reported_status (r : outcome pyval) : option pyval :=
  match r with
  | Returned (PDict d) => d !! "status"
  | _ => None
  end.

(** ** A client to run *)

(** A [parse_qs] for the one redirect used below. *)
Definition example_query (p : string) : gmap string (list string) :=
  if bool_decide (p = "/?access_token=XYZ")
  then {[ "access_token" := ["XYZ"] ]}
  else ∅.

(** The caller's dictionaries: reference 0 asks for a POST, reference 1
    has a number where the method should be. *)
Definition example_dicts : list pydict :=
  [ {[ "method" := PStr "post"; "fields" := PStr "name" ]};
    {[ "method" := PInt 5 ]} ].

Definition fresh_client : machine :=
  snd (construct example_dicts (Some "app") "https://www.geni.com" false false).

(** The client after [geni.Event.bind('auth:statusChange', on_status_change)]. *)
Definition subscribed_client : machine :=
  snd (Event_bind "auth:statusChange" 1 fresh_client).

(** The browser's redirect, [GET /?access_token=XYZ HTTP/1.1]. *)
Definition browser_redirect : handshake :=
  {| port := 8080; inbound := Accepted "GET" "/?access_token=XYZ" |}.

(** The same request line with the method in lower case, the only
    spelling that reaches [do_get]. *)
Definition lowercase_redirect : handshake :=
  {| port := 8080; inbound := Accepted "get" "/?access_token=XYZ" |}.

Definition authorized_client : machine :=
  snd (connect example_query lowercase_redirect None subscribed_client).

(** The body by which the service reports the token invalid. *)
Definition invalid_token_body : pyval :=
  PDict {[ "error" := PDict {[ "type" := PStr "OAuthException";
                               "message" := PStr "Invalid access token" ]} ]}.

Definition service_rejects : network :=
  fun _ => Response (Decoded invalid_token_body).

Definition service_down : network :=
  fun _ => NetworkError "Connection refused".

Definition service_answers : network :=
  fun _ => Response (Decoded (PDict {[ "id" := PStr "profile-1" ]})).

(** A session: subscribe, log in, call the API, be turned away, log in
    again through a browser, log out with the service down. *)
Definition example_program : list op :=
  [ Bind "auth:statusChange" 1;
    Connect lowercase_redirect (Some 2);
    Api service_answers "/profile" (Some 0) None;
    Get_status service_answers None;
    Api service_rejects "/profile" (Some 1) None;
    Api service_rejects "/profile" None (Some 2);
    Get_status service_down None;
    Connect browser_redirect None;
    Unbind "auth:statusChange" (Some 7);
    Logout service_down None ].

(** ** Further vocabulary *)

(** A registry holding the subscribers of one event. *)
Definition one_event (event : string) (subs : list callback) : GeniEvent.t :=
  {| GeniEvent._events := {[ event := subs ]} |}.

(** What a call added to the trace: the effects of [m'] that [m] did not
    have yet. *)
Definition since (m m' : machine) : list effect :=
  drop (length (trace m)) (trace m').

(** The requests among some effects, in order. *)
Definition requests_of (es : list effect) : list http_request :=
  omap (fun e => match e with Requested rq => Some rq | _ => None end) es.

(** The parameters [api] sends for a call: those of the caller's
    dictionary without ['method'], with the token under ['access_token']
    when one is held. *)
Definition sent_params (params : option ref) (m : machine) : pydict :=
  let d := match params with
           | Some r => default ∅ (heap m !! r)
           | None => ∅
           end in
  let d := delete "method" d in
  if truthy (_access_token (this m))
  then <["access_token" := py_of_opt (_access_token (this m))]> d
  else d.

(** A request as [requests] is given it by [api]: the parameters go in
    the query string of a [GET] and in the JSON body of anything else. *)
Definition request_of (method url : string) (d : pydict) : http_request :=
  {| rq_method := method;
     rq_url := url;
     rq_params := if bool_decide (method = "GET") then Some d else None;
     rq_json := if bool_decide (method = "GET") then None else Some d |}.

(** The request of an [api] call. *)
Definition api_request (method path : string) (params : option ref)
    (m : machine) : http_request :=
  request_of method (_host (this m) ++ "/api/" ++ lstrip_slash path)
    (sent_params params m).

(** The machine with more effects on its trace. *)
Definition extend (m : machine) (es : list effect) : machine :=
  {| this := this m; heap := heap m; trace := (trace m ++ es)%list |}.

(** The machine with another client object. *)
Definition with_this (self : GeniSDK) (m : machine) : machine :=
  {| this := self; heap := heap m; trace := trace m |}.

(** The effect of [if callback: callback(v)]. *)
Definition delivered (cb : option callback) (args : list pyval) : list effect :=
  match cb with
  | Some c => [Called c args]
  | None => []
  end.

(** The debug line of [api] for an error. *)
Definition error_logged (self : GeniSDK) (err : pyval) : list effect :=
  if _logging self
  then [Printed [PStr "[Geni SDK]"; PStr "API error:"; err]]
  else [].



(** The request of the liveness check of [get_status]. *)
Definition liveness_request (m : machine) : http_request :=
  api_request "GET" "/user" None m.

(** A body that is not a dictionary and that [api] returns as it is: a
    list without the element ['error'], a string without the text. *)
Definition plain_body (data : pyval) : bool :=
  match data with
  | PList l => negb (existsb (fun x => py_eq_str x "error") l)
  | PStr s => negb (is_substring "error" s)
  | _ => false
  end.

(** The page the browser is sent to by [connect]. *)
Definition authorize_url (host app_id : string) (p : N) : string :=
  host ++ "/oauth/authorize?response_type=token&client_id=" ++ app_id ++
  "&redirect_uri=http://localhost:" ++ pretty p ++ "&display=popup".

(** The request of [logout]. *)
Definition logout_request (self : GeniSDK) : http_request :=
  {| rq_method := "GET";
     rq_url := _host self ++ "/oauth/logout";
     rq_params :=
       Some (if truthy (_access_token self)
             then <["access_token" := py_of_opt (_access_token self)]>
                    {[ "client_id" := py_of_opt (_app_id self) ]}
             else {[ "client_id" := py_of_opt (_app_id self) ]});
     rq_json := None |}.

(** The three statuses of a session. *)
Definition status_known (self : GeniSDK) : Prop :=
  _status self = "unknown" \/ _status self = "authorized" \/
  _status self = "unauthorized".

(** The operations on the event registry, as opposed to the methods of
    the client. *)
Definition is_registry_op (o : op) : bool :=
  match o with
  | Bind _ _ | Unbind _ _ => true
  | _ => false
  end.

(** An operation that may write to the caller's dictionary [r]: an
    [api] call that is passed it. *)
Definition passes_dict (o : op) (r : ref) : bool :=
  match o with
  | Api _ _ (Some r') _ => bool_decide (r' = r)
  | _ => false
  end.

(** ** examples/basic_usage.py *)

(** The two callbacks of the script. *)
Definition on_status_change : callback := 1.
Definition auth_callback : callback := 2.

(** The script: construct the client, bind [on_status_change] to
    ['auth:statusChange'], connect with [auth_callback]. *)
Definition basic_usage (query_of : string -> gmap string (list string))
    (h : handshake) : outcome unit * machine :=
  (__init__ (Some "your_app_id_here") "https://www.geni.com" false false ;;
   Event_bind "auth:statusChange" on_status_change ;;
   connect query_of h (Some auth_callback))
    {| this := blank; heap := []; trace := [] |}.

(** ** More to run *)

(** A registry in which callback 1 is subscribed twice to event [e],
    around callback 2. *)
Definition example_registry : GeniEvent.t :=
  GeniEvent.bind "e" 1 (GeniEvent.bind "e" 2 (GeniEvent.bind "e" 1 GeniEvent.__init__)).

(** A service that answers every request with the same body. *)
Definition service_says (data : pyval) : network :=
  fun _ => Response (Decoded data).

(** A redirect that reaches the handler without a token. *)
Definition cancelled_redirect : handshake :=
  {| port := 8080; inbound := Accepted "get" "/?error=access_denied" |}.

(** The line [get /?access_token=XYZ], without a version: the library
    takes a request of two words for HTTP/0.9, which has the method [GET]
    only, and answers 400. *)
Definition versionless_redirect : handshake :=
  {| port := 8080; inbound := Refused "" 400 |}.

(** A connection that closes without a request. *)
Definition silent_redirect : handshake :=
  {| port := 8080; inbound := NoRequest |}.

(** * Properties *)

(** ** Running the small pieces *)

Lemma machine_eta (m : machine) :
  {| this := this m; heap := heap m; trace := trace m |} = m.
Proof. by destruct m. Qed.

Lemma with_status_same (self : GeniSDK) :
  with_status (_status self) self = self.
Proof. by destruct self. Qed.

Lemma _log_run (args : list pyval) (m : machine) :
  _log args m =
  (Returned tt,
   {| this := this m; heap := heap m;
      trace := (trace m ++
                if _logging (this m) then [Printed (PStr "[Geni SDK]" :: args)] else [])%list |}).
Proof.
  unfold _log, M_bind, get_self, when, emit, ret.
  destruct (_logging (this m)); [done|].
  by rewrite app_nil_r, machine_eta.
Qed.

Lemma _set_status_run (status : string) (m : machine) :
  _set_status status m =
  (Returned tt,
   {| this := with_status status (this m); heap := heap m;
      trace := (trace m ++ published status (this m))%list |}).
Proof.
  unfold _set_status, published, M_bind, get_self, modify_self, Event_trigger,
    emit_all, ret.
  case_bool_decide as Hst; simpl; [|done].
  rewrite app_nil_r, <- Hst, with_status_same. by rewrite machine_eta.
Qed.

Lemma if_callback_run (cb : option callback) (args : list pyval) (m : machine) :
  if_callback cb args m =
  (Returned tt,
   {| this := this m; heap := heap m;
      trace := (trace m ++ match cb with Some c => [Called c args] | None => [] end)%list |}).
Proof.
  destruct cb; [done|]. unfold if_callback, ret.
  by rewrite app_nil_r, machine_eta.
Qed.

(** ** The event registry *)

Lemma list_remove_absent (cb : callback) (l : list callback) :
  cb ∉ l -> GeniEvent.list_remove cb l = None.
Proof.
  induction l as [|y l IH]; intros Hnotin; simpl; [done|].
  apply not_elem_of_cons in Hnotin as [Hne Hl].
  destruct (decide (cb = y)); [done|]. by rewrite IH.
Qed.

(** C5, as the code has it.  Unbinding a callback that is not subscribed
    to an event that has a subscriber list raises the [ValueError] of
    [list.remove]; the subscriber list, and the rest of the client, is
    unchanged. *)
Theorem unbind_absent_callback_raises
    (event : string) (cb : callback) (subs : list callback) (m : machine) :
  GeniEvent.subscribers event (Event (this m)) = Some subs ->
  cb ∉ subs ->
  Event_unbind event (Some cb) m =
    (Raised (ValueError "list.remove(x): x not in list"), m).
Proof.
  intros Hsubs Hnotin.
  unfold Event_unbind, M_bind, get_self, GeniEvent.unbind.
  unfold GeniEvent.subscribers in Hsubs. rewrite Hsubs.
  by rewrite (list_remove_absent _ _ Hnotin).
Qed.

Lemma _set_status_same (status : string) (m : machine) :
  _status (this m) = status -> _set_status status m = (Returned tt, m).
Proof.
  intros <-. rewrite _set_status_run. unfold published.
  rewrite bool_decide_eq_true_2 by done.
  by rewrite app_nil_r, with_status_same, machine_eta.
Qed.

(** C6.  [_set_status] is idempotent: a second call with the same value
    changes nothing and publishes nothing, so two calls in a row publish
    the status change to the subscribers at most once; and a call with
    the status already held changes nothing and fires no event. *)
Theorem set_status_idempotent (status : string) (m : machine) :
  let m1 := snd (_set_status status m) in
  let m2 := snd (_set_status status m1) in
  _set_status status m1 = (Returned tt, m1) /\
  (trace m2 = trace m \/
   trace m2 = (trace m ++
     GeniEvent.trigger "auth:statusChange" [PStr status] (Event (this m)))%list) /\
  _set_status (_status (this m)) m = (Returned tt, m).
Proof.
  assert (Hsecond : _set_status status (snd (_set_status status m))
                    = (Returned tt, snd (_set_status status m))).
  { apply _set_status_same. by rewrite _set_status_run. }
  simpl. split; [exact Hsecond|]. split; [|by apply _set_status_same].
  rewrite Hsecond. simpl. rewrite _set_status_run. simpl. unfold published.
  case_bool_decide; [left; by rewrite app_nil_r | by right].
Qed.

(** C8.  Without an application identifier ([None], or the empty
    string, which Python takes for false as well) the constructor raises
    the [ValueError] that is the ConfigurationError, whatever the host,
    the cookie and logging flags are; and so do [connect] and [logout] on
    a client whose identifier is missing, before they do anything. *)
Theorem missing_app_id_raises
    (query_of : string -> gmap string (list string))
    (dicts : list pydict) (app_id : option string) (host : string)
    (cookies logging : bool)
    (m : machine) (h : handshake) (net : network) (cb : option callback) :
  truthy app_id = false ->
  truthy (_app_id (this m)) = false ->
  fst (construct dicts app_id host cookies logging)
    = Raised (ValueError "Geni Python SDK requires an Application ID") /\
  raises_ConfigurationError (fst (construct dicts app_id host cookies logging)) = true /\
  connect query_of h cb m
    = (Raised (ValueError "connect() called without an app id"), m) /\
  raises_ConfigurationError (fst (connect query_of h cb m)) = true /\
  logout net cb m
    = (Raised (ValueError "logout() called without an app id"), m) /\
  raises_ConfigurationError (fst (logout net cb m)) = true.
Proof.
  intros Hid Hm.
  assert (Hnew : fst (construct dicts app_id host cookies logging)
                 = Raised (ValueError "Geni Python SDK requires an Application ID")).
  { unfold construct, __init__, M_bind, modify_self. simpl. rewrite Hid. simpl.
    by rewrite _log_run. }
  assert (Hconnect : connect query_of h cb m
                     = (Raised (ValueError "connect() called without an app id"), m)).
  { unfold connect, M_bind, get_self. by rewrite Hm. }
  assert (Hlogout : logout net cb m
                    = (Raised (ValueError "logout() called without an app id"), m)).
  { unfold logout, M_bind, get_self. by rewrite Hm. }
  rewrite Hnew, Hconnect, Hlogout. by repeat split.
Qed.

(** C9.  [connect] on a client that holds a token hands
    [{'status': 'authorized', 'access_token': token}] to the callback and
    returns: the client and the caller's dictionaries are unchanged, and
    the trace gains the debug line (when logging is on) and the callback's
    call, so no listener is bound and no browser opened. *)
Theorem connect_short_circuits
    (query_of : string -> gmap string (list string))
    (m : machine) (h : handshake) (cb : option callback) (tok : string) :
  truthy (_app_id (this m)) = true ->
  _access_token (this m) = Some tok ->
  tok <> "" ->
  connect query_of h cb m =
    (Returned tt,
     {| this := this m; heap := heap m;
        trace := (trace m ++
          (if _logging (this m)
           then [Printed [PStr "[Geni SDK]";
                          PStr "connect() called when user is already connected"]]
           else []) ++
          match cb with
          | Some c => [Called c [PDict {[ "status" := PStr "authorized";
                                         "access_token" := PStr tok ]}]]
          | None => []
          end)%list |}).
Proof.
  intros Hid Htok Hne.
  unfold connect, M_bind, get_self. rewrite Hid, Htok. simpl.
  rewrite bool_decide_eq_false_2 by done. simpl.
  rewrite _log_run, if_callback_run. simpl. by rewrite <- app_assoc.
Qed.

(** [logout] with an application identifier: the request goes out, the
    token is dropped and the status set to unknown whatever the request
    did, the callback is called; a failed request is raised again after
    that. *)
Lemma logout_run (net : network) (cb : option callback) (m : machine) :
  truthy (_app_id (this m)) = true ->
  exists rq,
    logout net cb m =
      (match net rq with
       | Response _ => Returned tt
       | NetworkError msg => Raised (RequestException msg)
       end,
       {| this := with_status "unknown" (with_access_token None (this m));
          heap := heap m;
          trace := (trace m ++ [Requested rq] ++ published "unknown" (this m) ++
                    match cb with Some c => [Called c []] | None => [] end)%list |}).
Proof.
  intros Hid. unfold logout, M_bind, get_self. rewrite Hid. simpl.
  unfold try_finally, request, M_bind, emit.
  match goal with |- context [net ?rq] => exists rq; destruct (net rq) as [msg|b] end;
    simpl; unfold modify_self; rewrite _set_status_run; simpl;
    rewrite if_callback_run; simpl; by rewrite <- !app_assoc.
Qed.

(** C4.  After [logout] on a client with an application identifier the
    stored token is cleared and the status is unknown, when the request to
    the service succeeded and when it raised; in the second case the
    exception of the request is raised again once the session is reset. *)
Theorem logout_always_clears (net : network) (cb : option callback) (m : machine) :
  truthy (_app_id (this m)) = true ->
  let r := logout net cb m in
  _access_token (this (snd r)) = None /\
  _status (this (snd r)) = "unknown" /\
  exists rq,
    trace (snd r) !! length (trace m) = Some (Requested rq) /\
    fst r = match net rq with
            | Response _ => Returned tt
            | NetworkError msg => Raised (RequestException msg)
            end.
Proof.
  intros Hid. destruct (logout_run net cb m Hid) as (rq & ->). simpl.
  split; [done|]. split; [done|]. exists rq. split; [|done].
  rewrite lookup_app_r by lia. by rewrite Nat.sub_diag.
Qed.

(** ** api *)

Ltac exec :=
  repeat first
    [ rewrite _set_status_run
    | rewrite _log_run
    | rewrite if_callback_run
    | progress (unfold M_bind, try_except, ret, raise, get_self, modify_self, emit,
                when, request, json, read_dict; simpl) ].

Ltac api_try_case :=
  exec; rewrite <- ?app_assoc; simpl;
  eexists _, _; (split; [reflexivity|]);
  (split; [reflexivity|]); (split; [reflexivity|]); (split; [by auto|]);
  intros; simplify_eq/=; try done.

(** The [try] with its handler.  It starts with the request and always
    returns; it leaves the caller's dictionaries alone and the client as
    it was or demoted; when the request fails at the transport level the
    handler returns the error value, after handing it to the callback. *)
Lemma api_try_effect (net : network) (method url : string) (params : ref)
    (cb : option callback) (m : machine) :
  let r := try_except (api_try net method url params cb) (api_except cb) m in
  exists rq rest v,
    trace (snd r) = (trace m ++ Requested rq :: rest)%list /\
    fst r = Returned v /\
    heap (snd r) = heap m /\
    (this (snd r) = this m \/ this (snd r) = demoted (this m)) /\
    forall e, failure_of (net rq) = Some e ->
      v = error_value e /\ this (snd r) = this m /\
      rest = match cb with Some c => [Called c [error_value e]] | None => [] end.
Proof.
  unfold api_try, api_except. exec.
  match goal with |- context [net ?rq] =>
    exists rq; destruct (net rq) as [msg|[data|msg]] eqn:Hnet end;
    [api_try_case| |api_try_case].
  destruct data as [|b|z|f|s|l|d]; simpl; try api_try_case.
  - destruct (is_substring "error" s); api_try_case.
  - destruct (existsb _ l); api_try_case.
  - destruct (d !! "error") as [err|] eqn:Herr; simpl; [|api_try_case].
    destruct err as [| | | | | |e]; simpl; try api_try_case.
    destruct (py_eq_str _ _); api_try_case.
Qed.

(** [api] up to its [try], on a dictionary of the caller and on a new one. *)
Lemma api_on_caller_dict (net : network) (path : string) (r : ref) (d : pydict)
    (cb : option callback) (m : machine) :
  heap m !! r = Some d ->
  d <> ∅ ->
  let tok := _access_token (this m) in
  let url := _host (this m) ++ url_of "api" ++ "/" ++ lstrip_slash path in
  api net path (Some r) cb m =
    match popped_method (Some r) m with
    | PStr s =>
        try_except (api_try net (upper s) url r cb) (api_except cb)
          {| this := this m;
             heap := <[r := if truthy tok
                            then <["access_token" := py_of_opt tok]> (delete "method" d)
                            else delete "method" d]> (heap m);
             trace := trace m |}
    | v =>
        (Raised (AttributeError
                   ("'" ++ type_name v ++ "' object has no attribute 'upper'")),
         {| this := this m; heap := <[r := delete "method" d]> (heap m);
            trace := trace m |})
    end.
Proof.
  intros Hd Hne tok url. subst tok url.
  unfold api, popped_method, dict_pop, dict_setitem, write_dict. exec.
  rewrite Hd. simpl. rewrite bool_decide_eq_false_2 by done. simpl. rewrite Hd. simpl.
  assert (Hlt : r < length (heap m)) by by eapply lookup_lt_Some.
  destruct (d !! "method") as [v|] eqn:Hmethod; simpl.
  - destruct v; simpl; try done.
    destruct (truthy (_access_token (this m))); simpl; [|done].
    rewrite list_lookup_insert_eq by done. simpl. by rewrite list_insert_insert_eq.
  - rewrite (delete_id d "method") by done.
    destruct (truthy (_access_token (this m))); simpl.
    + by rewrite Hd.
    + by rewrite list_insert_id, machine_eta.
Qed.

Lemma api_on_new_dict (net : network) (path : string) (params : option ref)
    (cb : option callback) (m : machine) :
  match params with Some r => default ∅ (heap m !! r) = ∅ | None => True end ->
  let tok := _access_token (this m) in
  let url := _host (this m) ++ url_of "api" ++ "/" ++ lstrip_slash path in
  api net path params cb m =
    try_except (api_try net "GET" url (length (heap m)) cb) (api_except cb)
      {| this := this m;
         heap := (heap m ++ [if truthy tok
                             then {[ "access_token" := py_of_opt tok ]}
                             else ∅])%list;
         trace := trace m |}.
Proof.
  intros Hparams tok url. subst tok url.
  assert (Hnew : forall A (k : ref -> M A),
    M_bind (match params with
            | Some r => M_bind (read_dict r)
                          (fun d => if bool_decide (d = ∅) then new_dict else ret r)
            | None => new_dict
            end) k m
    = k (length (heap m))
        {| this := this m; heap := (heap m ++ [∅])%list; trace := trace m |}).
  { intros A k. destruct params as [r|]; [|done].
    unfold M_bind, read_dict. simpl. by rewrite Hparams, bool_decide_eq_true_2. }
  unfold api. rewrite Hnew.
  unfold dict_pop, dict_setitem, write_dict. exec.
  rewrite lookup_app_r, Nat.sub_diag by done. simpl.
  rewrite lookup_empty. simpl.
  destruct (truthy (_access_token (this m))); simpl; [|done].
  rewrite lookup_app_r, Nat.sub_diag by done. simpl.
  by rewrite insert_app_r_alt, Nat.sub_diag by done.
Qed.


(** [get_status] on a client that holds no token does not go to the
    network: it reports unknown and sets the status to it. *)
Lemma get_status_without_token (net : network) (cb : option callback) (m : machine) :
  truthy (_access_token (this m)) = false ->
  get_status net cb m =
    (Returned (PDict (status_dict "unknown" None)),
     {| this := with_status "unknown" (this m); heap := heap m;
        trace := (trace m ++ published "unknown" (this m) ++
                  match cb with
                  | Some c => [Called c [PDict (status_dict "unknown" None)]]
                  | None => []
                  end)%list |}).
Proof.
  intros Htok. unfold get_status. exec. rewrite Htok. exec.
  by rewrite <- app_assoc.
Qed.

Lemma params_cases (params : option ref) (m : machine) :
  (exists r d, params = Some r /\ heap m !! r = Some d /\ d <> ∅) \/
  match params with Some r => default ∅ (heap m !! r) = ∅ | None => True end.
Proof.
  destruct params as [r|]; [|by right].
  destruct (heap m !! r) as [d|] eqn:Hd; [|by right].
  destruct (decide (d = ∅)) as [->|Hne]; [by right|].
  left. by exists r, d.
Qed.

(** With a string for the method, [api] gets to its [try] with the
    client and the trace as they were. *)
Lemma api_reaches_try (net : network) (path : string) (params : option ref)
    (cb : option callback) (m : machine) :
  is_str (popped_method params m) = true ->
  exists method r' m1,
    this m1 = this m /\ trace m1 = trace m /\
    api net path params cb m =
      try_except
        (api_try net method (_host (this m) ++ url_of "api" ++ "/" ++ lstrip_slash path)
           r' cb)
        (api_except cb) m1.
Proof.
  intros Hstr. destruct (params_cases params m) as [(r & d & -> & Hd & Hne)|Hnew].
  - rewrite (api_on_caller_dict net path r d cb m Hd Hne).
    destruct (popped_method (Some r) m); try done.
    eexists _, _, _. split; [|split; [|reflexivity]]; done.
  - rewrite (api_on_new_dict net path params cb m Hnew).
    eexists _, _, _. split; [|split; [|reflexivity]]; done.
Qed.

(** Otherwise it raises at [.upper()], before the [try]. *)
Lemma api_stops_early (net : network) (path : string) (params : option ref)
    (cb : option callback) (m : machine) :
  is_str (popped_method params m) = false ->
  exists m1,
    this m1 = this m /\ trace m1 = trace m /\
    api net path params cb m =
      (Raised (AttributeError ("'" ++ type_name (popped_method params m) ++
                               "' object has no attribute 'upper'")), m1).
Proof.
  intros Hstr. destruct (params_cases params m) as [(r & d & -> & Hd & Hne)|Hnew].
  - rewrite (api_on_caller_dict net path r d cb m Hd Hne).
    destruct (popped_method (Some r) m); try done;
      (eexists; split; [|split; [|reflexivity]]; done).
  - exfalso. destruct params as [r|]; [|done].
    simpl in Hstr, Hnew. by rewrite Hnew, lookup_empty in Hstr.
Qed.

(** Whatever it is given, [api] leaves the client as it was or demoted. *)
Lemma api_this (net : network) (path : string) (params : option ref)
    (cb : option callback) (m : machine) :
  let self' := this (snd (api net path params cb m)) in
  self' = this m \/ self' = demoted (this m).
Proof.
  simpl. destruct (is_str (popped_method params m)) eqn:Hstr.
  - destruct (api_reaches_try net path params cb m Hstr)
      as (method & r' & m1 & Hthis & _ & ->).
    destruct (api_try_effect net method
                (_host (this m) ++ url_of "api" ++ "/" ++ lstrip_slash path) r' cb m1)
      as (? & ? & ? & _ & _ & _ & Hcases & _).
    by rewrite Hthis in Hcases.
  - destruct (api_stops_early net path params cb m Hstr) as (m1 & Hthis & _ & ->).
    by left.
Qed.

(** C7.  A transport-level failure of an API call, a network error or a
    body that does not decode, is not raised past [api]: when the request
    the call sent failed that way, with the description [msg], the call
    returns the dictionary [{'error': msg}], after handing it to the
    callback, and the client is as it was.  The only exception [api] lets
    out is the [AttributeError] of a method that has no [upper()], raised
    before any request is sent. *)
Theorem api_catches_transport_failure (net : network) (path : string)
    (params : option ref) (cb : option callback) (m : machine) :
  let r := api net path params cb m in
  match fst r with
  | Returned v =>
      exists rq rest,
        trace (snd r) = (trace m ++ Requested rq :: rest)%list /\
        forall msg,
          net rq = NetworkError msg \/ net rq = Response (Undecodable msg) ->
          v = PDict {[ "error" := PStr msg ]} /\
          this (snd r) = this m /\
          rest = match cb with
                 | Some c => [Called c [PDict {[ "error" := PStr msg ]}]]
                 | None => []
                 end
  | Raised e =>
      is_transport_failure e = false /\
      is_str (popped_method params m) = false /\
      e = AttributeError ("'" ++ type_name (popped_method params m) ++
                          "' object has no attribute 'upper'") /\
      trace (snd r) = trace m
  end.
Proof.
  simpl. destruct (is_str (popped_method params m)) eqn:Hstr.
  - destruct (api_reaches_try net path params cb m Hstr)
      as (method & r' & m1 & Hthis & Htrace & ->).
    destruct (api_try_effect net method
                (_host (this m) ++ url_of "api" ++ "/" ++ lstrip_slash path) r' cb m1)
      as (rq & rest & v & Htr & -> & _ & _ & Hfail).
    exists rq, rest. rewrite Htrace in Htr. split; [done|].
    intros msg Hnet.
    assert (He : exists e, failure_of (net rq) = Some e /\ str_of_exn e = msg).
    { destruct Hnet as [-> | ->]; by eexists. }
    destruct He as (e & He & <-).
    destruct (Hfail e He) as (-> & Hsame & ->). by rewrite Hthis in Hsame.
  - by destruct (api_stops_early net path params cb m Hstr)
      as (m1 & _ & Htrace & ->).
Qed.


(** C10, as the code has it.  [api] writes into the dictionary the caller
    passes, when that dictionary is not empty: after the call, returned or
    raised, the ['method'] entry is gone from it.  When the popped method
    is a string, so that the call gets past its [.upper()], and a token is
    held, the token is in the dictionary under ['access_token'].  When the
    popped method has no [upper()], [None], a boolean, a number, a list or
    a dictionary, the call raises the [AttributeError] of that after the
    pop, and nothing is inserted. *)
Theorem api_writes_into_params (net : network) (path : string) (r : ref)
    (d : pydict) (cb : option callback) (m : machine) :
  heap m !! r = Some d ->
  d <> ∅ ->
  let tok := _access_token (this m) in
  let res := api net path (Some r) cb m in
  exists d',
    heap (snd res) !! r = Some d' /\
    d' !! "method" = None /\
    match popped_method (Some r) m with
    | PStr _ =>
        if truthy tok
        then d' = <["access_token" := py_of_opt tok]> (delete "method" d) /\
             d' !! "access_token" = Some (py_of_opt tok)
        else d' = delete "method" d
    | PNone | PBool _ | PInt _ | PFloat _ | PList _ | PDict _ =>
        d' = delete "method" d /\
        fst res =
          Raised (AttributeError
                    ("'" ++ match popped_method (Some r) m with
                            | PNone => "NoneType"
                            | PBool _ => "bool"
                            | PInt _ => "int"
                            | PFloat _ => "float"
                            | PList _ => "list"
                            | _ => "dict"
                            end ++ "' object has no attribute 'upper'"))
    end.
Proof.
  intros Hd Hne tok res. subst tok res.
  assert (Hlt : r < length (heap m)) by by eapply lookup_lt_Some.
  rewrite (api_on_caller_dict net path r d cb m Hd Hne).
  destruct (popped_method (Some r) m) as [| | | |s| |] eqn:Hpop; simpl;
    try (exists (delete "method" d); rewrite list_lookup_insert_eq by done;
         by rewrite lookup_delete_eq).
  match goal with |- context [try_except ?body ?handler ?m1] =>
    destruct (api_try_effect net (upper s)
                (_host (this m) ++ url_of "api" ++ "/" ++ lstrip_slash path) r cb m1)
      as (_ & _ & _ & _ & _ & -> & _) end.
  simpl. rewrite list_lookup_insert_eq by done.
  destruct (truthy (_access_token (this m))); eexists; (split; [done|]).
  - rewrite lookup_insert_ne, lookup_delete_eq by done.
    by rewrite lookup_insert_eq.
  - by rewrite lookup_delete_eq.
Qed.

(** ** connect *)

(** The answer of [send_error]. *)
Lemma send_error_run {A} (c : string) (code : N) (k : unit -> M A) (m : machine) :
  M_bind (send_error c code) k m =
    k tt {| this := this m; heap := heap m;
            trace := (trace m ++ error_answer c code)%list |}.
Proof.
  unfold send_error, error_answer. exec.
  destruct (_ && _); exec; by rewrite <- ?app_assoc.
Qed.

Lemma handle_request_this (query_of : string -> gmap string (list string))
    (rq : request_line) (server : HTTPServer) (m : machine) :
  exists server' es,
    handle_request query_of rq server m =
      (Returned server',
       {| this := this m; heap := heap m; trace := (trace m ++ es)%list |}).
Proof.
  unfold handle_request. destruct rq as [c p|c code|].
  - unfold do_get. case_bool_decide.
    + exec. destruct (query_of p !! "access_token") as [[|tok ?]|]; exec;
        rewrite <- ?app_assoc; by eexists _, _.
    + rewrite send_error_run. by eexists _, _.
  - rewrite send_error_run. by eexists _, _.
  - exists server, []. by rewrite app_nil_r, machine_eta.
Qed.

(** A request whose method is [GET] finds no [do_GET] on the handler: it
    is answered 501, with the error page, and leaves [oauth_response]
    unset. *)
Lemma handle_request_GET (query_of : string -> gmap string (list string))
    (rq : request_line) (server : HTTPServer) (m : machine) :
  command rq = "GET" ->
  handle_request query_of rq server m =
    (Returned server,
     {| this := this m; heap := heap m;
        trace := (trace m ++ [SentHeaders 501; SentErrorPage 501])%list |}).
Proof.
  intros Hcmd. destruct rq as [c p|c code|]; try done. simpl in Hcmd. subst c.
  unfold handle_request.
  change (bool_decide ("do_" ++ "GET" ∈ OAuthHandler_methods)) with false.
  cbv beta iota. by rewrite send_error_run.
Qed.

(** A request whose method is spelled [get] is served by [do_get]. *)
Lemma handle_request_get (query_of : string -> gmap string (list string))
    (rq : request_line) (server : HTTPServer) :
  command rq = "get" ->
  handle_request query_of rq server = do_get query_of rq server.
Proof.
  intros Hcmd. destruct rq as [c p|c code|]; try done. simpl in Hcmd. by subst c.
Qed.

(** ** The session invariant over programs *)

Lemma session_ok_no_token (self : GeniSDK) :
  truthy (_access_token self) = false -> session_ok self.
Proof. unfold session_ok. intros ->. done. Qed.

Lemma session_ok_authorized (self : GeniSDK) :
  _status self = "authorized" -> session_ok self.
Proof. by unfold session_ok. Qed.

Lemma api_session (net : network) (path : string) (params : option ref)
    (cb : option callback) (m : machine) :
  session_ok (this m) -> session_ok (this (snd (api net path params cb m))).
Proof.
  intros Hok. destruct (api_this net path params cb m) as [-> | ->]; [done|].
  by apply session_ok_no_token.
Qed.

Lemma connect_session (query_of : string -> gmap string (list string))
    (h : handshake) (cb : option callback) (m : machine) :
  session_ok (this m) -> session_ok (this (snd (connect query_of h cb m))).
Proof.
  intros Hok. unfold connect. exec.
  destruct (truthy (_app_id (this m))); simpl; [|done].
  destruct (truthy (_access_token (this m))) eqn:Htok; simpl; exec; [done|].
  match goal with |- context [handle_request query_of ?rq ?server ?m1] =>
    destruct (handle_request_this query_of rq server m1) as (server' & es & ->) end.
  exec. case_bool_decide as Hst; exec.
  - apply session_ok_authorized. simpl. by rewrite Hst.
  - by apply session_ok_no_token.
Qed.

Lemma get_status_session (net : network) (cb : option callback) (m : machine) :
  session_ok (this m) -> session_ok (this (snd (get_status net cb m))).
Proof.
  intros Hok. destruct (truthy (_access_token (this m))) eqn:Htok.
  2:{ rewrite get_status_without_token by done. by apply session_ok_no_token. }
  unfold get_status. exec. rewrite Htok.
  pose proof (api_session net "/user" None None m Hok) as Hapi.
  destruct (api net "/user" None None m) as [[v|e] m1]; simpl in *; [|done].
  unfold py_get.
  destruct v as [| | | | | |d]; exec; try done.
  destruct (py_truthy (default PNone (d !! "error"))); exec.
  - by apply session_ok_no_token.
  - by apply session_ok_authorized.
Qed.

Lemma logout_session (net : network) (cb : option callback) (m : machine) :
  session_ok (this m) -> session_ok (this (snd (logout net cb m))).
Proof.
  intros Hok. destruct (truthy (_app_id (this m))) eqn:Hid.
  - destruct (logout_run net cb m Hid) as (rq & ->).
    by apply session_ok_no_token.
  - unfold logout. exec. by rewrite Hid.
Qed.

Lemma Event_bind_session (event : string) (cb : callback) (m : machine) :
  session_ok (this m) -> session_ok (this (snd (Event_bind event cb m))).
Proof. done. Qed.

Lemma Event_unbind_session (event : string) (cb : option callback) (m : machine) :
  session_ok (this m) -> session_ok (this (snd (Event_unbind event cb m))).
Proof.
  intros Hok. unfold Event_unbind. exec.
  by destruct (GeniEvent.unbind event cb (Event (this m))).
Qed.

Lemma step_session (query_of : string -> gmap string (list string))
    (o : op) (m : machine) :
  session_ok (this m) -> session_ok (this (step query_of m o)).
Proof.
  intros Hok. unfold step. destruct o as [h cb|net cb|net cb|net p params cb|ev cb|ev cb];
    simpl.
  - by apply connect_session.
  - pose proof (get_status_session net cb m Hok) as H.
    unfold M_bind. by destruct (get_status net cb m) as [[?|?] ?].
  - by apply logout_session.
  - pose proof (api_session net p params cb m Hok) as H.
    unfold M_bind. by destruct (api net p params cb m) as [[?|?] ?].
  - by apply Event_bind_session.
  - by apply Event_unbind_session.
Qed.

Lemma construct_session (dicts : list pydict) (app_id : option string)
    (host : string) (cookies logging : bool) :
  session_ok (this (snd (construct dicts app_id host cookies logging))).
Proof.
  apply session_ok_no_token. unfold construct, __init__. exec.
  by destruct (truthy app_id); exec.
Qed.

(** C2.  From a freshly constructed client, whatever the caller does
    with [connect], [get_status], [logout] and [api] (and with the event
    registry), and whatever the network and the browser answer, the
    session invariant holds at every operation boundary: the stored token
    is non-empty only when the status is authorized.  An operation that
    raised counts as an operation. *)
Theorem session_invariant (query_of : string -> gmap string (list string))
    (dicts : list pydict) (app_id : option string) (host : string)
    (cookies logging : bool) (m0 : machine) (ops : list op) :
  construct dicts app_id host cookies logging = (Returned tt, m0) ->
  Forall (fun m => session_ok (this m)) (boundaries query_of ops m0).
Proof.
  intros Hnew.
  assert (Hok : session_ok (this m0)).
  { pose proof (construct_session dicts app_id host cookies logging) as H.
    by rewrite Hnew in H. }
  clear Hnew. revert m0 Hok.
  induction ops as [|o ops IH]; intros m0 Hok; simpl.
  - by constructor.
  - constructor; [done|]. apply IH. by apply step_session.
Qed.

(** [connect] when the request that arrives is a [GET]: the handler is
    not reached, so the result is the [getattr] default whatever the
    query string holds. *)
Lemma connect_GET_run (query_of : string -> gmap string (list string))
    (h : handshake) (cb : option callback) (m : machine) :
  truthy (_app_id (this m)) = true ->
  truthy (_access_token (this m)) = false ->
  command (inbound h) = "GET" ->
  exists url,
    connect query_of h cb m =
      (Returned tt,
       {| this := with_status "unknown" (this m); heap := heap m;
          trace := (trace m ++
                    [Listening (port h); BrowserOpened url;
                     SentHeaders 501; SentErrorPage 501] ++
                    published "unknown" (this m) ++
                    match cb with
                    | Some c => [Called c [PDict {[ "status" := PStr "unknown" ]}]]
                    | None => []
                    end)%list |}).
Proof.
  intros Hid Htok Hcmd. unfold connect. exec. rewrite Hid, Htok. simpl.
  rewrite handle_request_GET by done. exec.
  eexists. by rewrite <- !app_assoc.
Qed.

(** What [do_get] does once it is reached, by a request line whose
    method is spelled [get]: the token of the query string is stored and
    reported. *)
Lemma connect_get_run (query_of : string -> gmap string (list string))
    (h : handshake) (cb : option callback) (m : machine) (tok : string)
    (more : list string) :
  truthy (_app_id (this m)) = true ->
  truthy (_access_token (this m)) = false ->
  command (inbound h) = "get" ->
  query_of (path (inbound h)) !! "access_token" = Some (tok :: more) ->
  let r := connect query_of h cb m in
  fst r = Returned tt /\
  this (snd r) = with_status "authorized" (with_access_token (Some tok) (this m)) /\
  exists before,
    trace (snd r) =
      (trace m ++ before ++
       match cb with
       | Some c => [Called c [PDict {[ "status" := PStr "authorized";
                                      "access_token" := PStr tok ]}]]
       | None => []
       end)%list.
Proof.
  intros Hid Htok Hcmd Hquery. unfold connect. exec. rewrite Hid, Htok. simpl.
  rewrite handle_request_get by done. unfold do_get. exec. rewrite Hquery. exec.
  split; [done|]. split; [done|].
  rewrite <- !app_assoc. simpl.
  eexists (_ :: _ :: _ :: _ :: published "authorized" _). reflexivity.
Qed.

(** C1, on the code.  The redirect of a browser is a [GET]: whatever
    its query string holds, [access_token=XYZ] included, [connect] hands
    the callback [{'status': 'unknown'}], without a token and without an
    error entry, stores no token and sets the status to unknown.  The
    handler that would read the token is named [do_get] and is not the
    [do_GET] by which a [GET] is served. *)
Theorem connect_GET_drops_token (query_of : string -> gmap string (list string))
    (h : handshake) (cb : callback) (m : machine) :
  truthy (_app_id (this m)) = true ->
  truthy (_access_token (this m)) = false ->
  command (inbound h) = "GET" ->
  let r := connect query_of h (Some cb) m in
  fst r = Returned tt /\
  _access_token (this (snd r)) = _access_token (this m) /\
  _status (this (snd r)) = "unknown" /\
  last (trace (snd r)) = Some (Called cb [PDict {[ "status" := PStr "unknown" ]}]) /\
  SentHeaders 501 ∈ trace (snd r).
Proof.
  intros Hid Htok Hcmd.
  destruct (connect_GET_run query_of h (Some cb) m Hid Htok Hcmd) as (url & ->).
  split; [done|]. split; [done|]. split; [done|].
  cbn [snd trace]. split.
  - by rewrite !app_assoc, last_snoc.
  - apply elem_of_app. right. apply elem_of_app. left. set_solver.
Qed.

(** ** The configuration of a client *)

Lemma same_config_refl (self : GeniSDK) : same_config self self.
Proof. done. Qed.

Lemma same_config_demoted (self : GeniSDK) : same_config self (demoted self).
Proof. done. Qed.

Lemma api_config (net : network) (path : string) (params : option ref)
    (cb : option callback) (m : machine) :
  same_config (this m) (this (snd (api net path params cb m))).
Proof. by destruct (api_this net path params cb m) as [-> | ->]. Qed.

Lemma connect_config (query_of : string -> gmap string (list string))
    (h : handshake) (cb : option callback) (m : machine) :
  same_config (this m) (this (snd (connect query_of h cb m))).
Proof.
  unfold connect. exec.
  destruct (truthy (_app_id (this m))); simpl; [|done].
  destruct (truthy (_access_token (this m))); simpl; exec; [done|].
  match goal with |- context [handle_request query_of ?rq ?server ?m1] =>
    destruct (handle_request_this query_of rq server m1) as (server' & es & ->) end.
  exec. by case_bool_decide; exec.
Qed.

Lemma get_status_config (net : network) (cb : option callback) (m : machine) :
  same_config (this m) (this (snd (get_status net cb m))).
Proof.
  destruct (truthy (_access_token (this m))) eqn:Htok.
  2:{ by rewrite get_status_without_token. }
  unfold get_status. exec. rewrite Htok.
  pose proof (api_config net "/user" None None m) as Hapi.
  destruct (api net "/user" None None m) as [[v|e] m1]; simpl in *; [|done].
  unfold py_get.
  destruct v as [| | | | | |d]; exec; try done.
  by destruct (py_truthy (default PNone (d !! "error"))); exec.
Qed.

Lemma logout_config (net : network) (cb : option callback) (m : machine) :
  same_config (this m) (this (snd (logout net cb m))).
Proof.
  destruct (truthy (_app_id (this m))) eqn:Hid.
  - by destruct (logout_run net cb m Hid) as (rq & ->).
  - unfold logout. exec. by rewrite Hid.
Qed.

Lemma step_config (query_of : string -> gmap string (list string))
    (o : op) (m : machine) :
  same_config (this m) (this (step query_of m o)).
Proof.
  unfold step. destruct o as [h cb|net cb|net cb|net p params cb|ev cb|ev cb]; simpl.
  - apply connect_config.
  - pose proof (get_status_config net cb m) as H.
    unfold M_bind. by destruct (get_status net cb m) as [[?|?] ?].
  - apply logout_config.
  - pose proof (api_config net p params cb m) as H.
    unfold M_bind. by destruct (api net p params cb m) as [[?|?] ?].
  - done.
  - unfold Event_unbind. exec.
    by destruct (GeniEvent.unbind ev cb (Event (this m))).
Qed.

(** Every client a program can hold has the application identifier it
    was constructed with, and that identifier is not empty. *)
Lemma constructed_client_has_app_id
    (query_of : string -> gmap string (list string))
    (dicts : list pydict) (app_id : option string) (host : string)
    (cookies logging : bool) (m0 : machine) (ops : list op) :
  construct dicts app_id host cookies logging = (Returned tt, m0) ->
  _app_id (this (run query_of ops m0)) = app_id /\ truthy app_id = true.
Proof.
  intros Hnew.
  assert (H0 : _app_id (this m0) = app_id /\ truthy app_id = true).
  { revert Hnew. unfold construct, __init__. exec.
    destruct (truthy app_id); exec; [|done]. by intros [= <-]. }
  destruct H0 as [H0 Htruthy]. split; [|done]. clear Hnew.
  revert m0 H0. unfold run.
  induction ops as [|o ops IH]; intros m0 H0; simpl; [done|].
  apply IH. destruct (step_config query_of o m0) as (-> & _). done.
Qed.

(** ** The example client *)

Ltac evaluate := vm_compute; repeat split; first [reflexivity | discriminate].

Example upper_post : upper "post" = "POST".
Proof. reflexivity. Qed.

Example lstrip_user : lstrip_slash "//user" = "user".
Proof. reflexivity. Qed.

Example error_in_text : is_substring "error" "an error page" = true.
Proof. reflexivity. Qed.

Example fresh_client_built :
  construct example_dicts (Some "app") "https://www.geni.com" false false
  = (Returned tt, fresh_client).
Proof. reflexivity. Qed.

Example authorized_client_session :
  _access_token (this authorized_client) = Some "XYZ" /\
  _status (this authorized_client) = "authorized" /\
  heap authorized_client = example_dicts.
Proof. evaluate. Qed.

(** What goes out: the browser is sent to the authorization page with
    the listener's port in the redirect; a POST carries the caller's
    parameters, the token among them, as its JSON body. *)
Example connect_opens_browser :
  trace (snd (connect example_query browser_redirect None subscribed_client)) !! 1
  = Some (BrowserOpened
      "https://www.geni.com/oauth/authorize?response_type=token&client_id=app&redirect_uri=http://localhost:8080&display=popup").
Proof. evaluate. Qed.

Example api_posts_json :
  last (trace (snd (api service_answers "/profile-101/tree_matches" (Some 0) None
                      authorized_client)))
  = Some (Requested
      {| rq_method := "POST";
         rq_url := "https://www.geni.com/api/profile-101/tree_matches";
         rq_params := None;
         rq_json := Some {[ "fields" := PStr "name"; "access_token" := PStr "XYZ" ]} |}).
Proof. evaluate. Qed.

Example get_status_keeps_valid_token :
  reported_status (fst (get_status service_answers None authorized_client))
    = Some (PStr "authorized") /\
  _access_token (this (snd (get_status service_answers None authorized_client)))
    = Some "XYZ".
Proof. evaluate. Qed.

Example get_status_drops_rejected_token :
  reported_status (fst (get_status service_rejects None authorized_client))
    = Some (PStr "unknown") /\
  _access_token (this (snd (get_status service_rejects None authorized_client))) = None /\
  _status (this (snd (get_status service_rejects None authorized_client))) = "unknown".
Proof. evaluate. Qed.

(** The same redirect as a line without a version is refused by the
    library before any handler is looked up; and a connection may close
    without a request.  Either way the callback gets the default. *)
Example connect_refused_request :
  command (inbound versionless_redirect) = "" /\
  connect example_query versionless_redirect (Some 2) subscribed_client =
    (Returned tt,
     {| this := this subscribed_client; heap := heap subscribed_client;
        trace := [Listening 8080;
                  BrowserOpened
                    "https://www.geni.com/oauth/authorize?response_type=token&client_id=app&redirect_uri=http://localhost:8080&display=popup";
                  SentHeaders 400; SentErrorPage 400;
                  Called 2 [PDict {[ "status" := PStr "unknown" ]}]] |}).
Proof. evaluate. Qed.

Example connect_no_request :
  trace (snd (connect example_query silent_redirect (Some 2) subscribed_client)) =
    [Listening 8080;
     BrowserOpened
       "https://www.geni.com/oauth/authorize?response_type=token&client_id=app&redirect_uri=http://localhost:8080&display=popup";
     Called 2 [PDict {[ "status" := PStr "unknown" ]}]].
Proof. evaluate. Qed.

Lemma connect_GET_drops_token_witness :
  truthy (_app_id (this subscribed_client)) = true /\
  truthy (_access_token (this subscribed_client)) = false /\
  command (inbound browser_redirect) = "GET" /\
  example_query (path (inbound browser_redirect)) !! "access_token" = Some ["XYZ"] /\
  let r := connect example_query browser_redirect (Some 2) subscribed_client in
  fst r = Returned tt /\
  _access_token (this (snd r)) = None /\
  _status (this (snd r)) = "unknown" /\
  last (trace (snd r)) = Some (Called 2 [PDict {[ "status" := PStr "unknown" ]}]).
Proof.
  split; [reflexivity|]. split; [reflexivity|]. split; [reflexivity|].
  split; [reflexivity|].
  destruct (connect_GET_drops_token example_query browser_redirect 2 subscribed_client
              eq_refl eq_refl eq_refl) as (Hret & Htok & Hst & Hlast & _).
  split; [exact Hret|]. split; [exact Htok|]. split; [exact Hst|]. exact Hlast.
Defined.

(** The run of [example_program]: the token and the status at each
    operation boundary. *)
Example example_program_session :
  (fun m => (_access_token (this m), _status (this m)))
    <$> boundaries example_query example_program fresh_client
  = [ (None, "unknown");
      (None, "unknown");
      (Some "XYZ", "authorized");
      (Some "XYZ", "authorized");
      (Some "XYZ", "authorized");
      (Some "XYZ", "authorized");
      (None, "unauthorized");
      (None, "unknown");
      (None, "unknown");
      (None, "unknown");
      (None, "unknown") ].
Proof. evaluate. Qed.

Lemma session_invariant_witness :
  construct example_dicts (Some "app") "https://www.geni.com" false false
    = (Returned tt, fresh_client) /\
  Forall (fun m => session_ok (this m))
    (boundaries example_query example_program fresh_client).
Proof.
  split; [reflexivity|].
  apply (session_invariant example_query example_dicts (Some "app")
           "https://www.geni.com" false false).
  reflexivity.
Defined.



Lemma logout_always_clears_witness :
  truthy (_app_id (this authorized_client)) = true /\
  _access_token (this (snd (logout service_down None authorized_client))) = None /\
  _status (this (snd (logout service_down None authorized_client))) = "unknown" /\
  _access_token (this (snd (logout service_answers None authorized_client))) = None /\
  _status (this (snd (logout service_answers None authorized_client))) = "unknown".
Proof.
  split; [reflexivity|].
  destruct (logout_always_clears service_down None authorized_client eq_refl)
    as (Htok & Hst & _).
  destruct (logout_always_clears service_answers None authorized_client eq_refl)
    as (Htok' & Hst' & _).
  by repeat split.
Defined.

Lemma unbind_absent_callback_raises_witness :
  GeniEvent.subscribers "auth:statusChange" (Event (this subscribed_client)) = Some [1] /\
  (2 ∉ [1]) /\
  Event_unbind "auth:statusChange" (Some 2) subscribed_client =
    (Raised (ValueError "list.remove(x): x not in list"), subscribed_client).
Proof.
  assert (Hnotin : 2 ∉ [1]).
  { intros Hin. apply list_elem_of_singleton in Hin. discriminate. }
  split; [reflexivity|]. split; [exact Hnotin|].
  exact (unbind_absent_callback_raises "auth:statusChange" 2 [1] subscribed_client
           eq_refl Hnotin).
Defined.

(** On the code, unbinding a callback that was never bound is not
    silent: with subscriber 1 bound, unbinding 2 raises. *)
Lemma unbind_absent_callback_not_silent :
  GeniEvent.subscribers "auth:statusChange" (Event (this subscribed_client)) = Some [1] /\
  fst (Event_unbind "auth:statusChange" (Some 2) subscribed_client)
    = Raised (ValueError "list.remove(x): x not in list") /\
  fst (Event_unbind "auth:statusChange" (Some 2) subscribed_client) <> Returned tt.
Proof. evaluate. Qed.

Lemma api_catches_transport_failure_witness :
  fst (api service_down "/user" None (Some 2) authorized_client)
    = Returned (PDict {[ "error" := PStr "Connection refused" ]}) /\
  this (snd (api service_down "/user" None (Some 2) authorized_client))
    = this authorized_client /\
  last (trace (snd (api service_down "/user" None (Some 2) authorized_client)))
    = Some (Called 2 [PDict {[ "error" := PStr "Connection refused" ]}]).
Proof.
  pose proof (api_catches_transport_failure service_down "/user" None (Some 2)
                authorized_client) as H.
  cbv zeta in H.
  destruct (api service_down "/user" None (Some 2) authorized_client) as [[v|e] m'].
  - destruct H as (rq & rest & Htrace & Hfail).
    destruct (Hfail "Connection refused" (or_introl eq_refl)) as (-> & Hthis & ->).
    split; [reflexivity|]. split; [exact Hthis|].
    cbn [snd fst] in *. rewrite Htrace.
    rewrite last_app. reflexivity.
  - destruct H as (_ & Hstr & _). discriminate Hstr.
Defined.

Lemma missing_app_id_raises_witness :
  truthy None = false /\
  truthy (_app_id blank) = false /\
  fst (construct [] None "https://www.geni.com" false true)
    = Raised (ValueError "Geni Python SDK requires an Application ID") /\
  connect example_query browser_redirect None
    {| this := blank; heap := []; trace := [] |}
    = (Raised (ValueError "connect() called without an app id"),
       {| this := blank; heap := []; trace := [] |}) /\
  logout service_answers None {| this := blank; heap := []; trace := [] |}
    = (Raised (ValueError "logout() called without an app id"),
       {| this := blank; heap := []; trace := [] |}).
Proof.
  split; [reflexivity|]. split; [reflexivity|].
  destruct (missing_app_id_raises example_query [] None "https://www.geni.com" false true
              {| this := blank; heap := []; trace := [] |} browser_redirect
              service_answers None eq_refl eq_refl)
    as (Hnew & _ & Hconnect & _ & Hlogout & _).
  by repeat split.
Defined.

Lemma connect_short_circuits_witness :
  truthy (_app_id (this authorized_client)) = true /\
  _access_token (this authorized_client) = Some "XYZ" /\
  "XYZ" <> "" /\
  connect example_query browser_redirect (Some 2) authorized_client =
    (Returned tt,
     {| this := this authorized_client; heap := heap authorized_client;
        trace := (trace authorized_client ++
                  [Called 2 [PDict {[ "status" := PStr "authorized";
                                      "access_token" := PStr "XYZ" ]}]])%list |}).
Proof.
  split; [reflexivity|]. split; [reflexivity|]. split; [discriminate|].
  exact (connect_short_circuits example_query authorized_client browser_redirect
           (Some 2) "XYZ" eq_refl eq_refl ltac:(discriminate)).
Defined.

Lemma api_writes_into_params_witness :
  heap authorized_client !! 0
    = Some {[ "method" := PStr "post"; "fields" := PStr "name" ]} /\
  ({[ "method" := PStr "post"; "fields" := PStr "name" ]} : pydict) <> ∅ /\
  heap (snd (api service_answers "/profile" (Some 0) None authorized_client)) !! 0
    = Some {[ "access_token" := PStr "XYZ"; "fields" := PStr "name" ]}.
Proof.
  assert (Hne : ({[ "method" := PStr "post"; "fields" := PStr "name" ]} : pydict) <> ∅).
  { intros Heq. apply (f_equal (fun d : pydict => d !! "method")) in Heq.
    discriminate Heq. }
  split; [reflexivity|]. split; [exact Hne|].
  pose proof (api_writes_into_params service_answers "/profile" 0 _ None
                authorized_client eq_refl Hne) as H.
  cbv zeta in H. destruct H as (d' & Hd & _ & Hd').
  etrans; [exact Hd|]. f_equal.
  change (popped_method (Some 0) authorized_client) with (PStr "post") in Hd'.
  change (truthy (_access_token (this authorized_client))) with true in Hd'.
  destruct Hd' as [-> _]. reflexivity.
Defined.

(** On the code, a token held does not always end up in the caller's
    dictionary: with a number under ['method'] the call raises at
    [.upper()], after the entry was popped and before the token is
    inserted. *)
Lemma api_non_string_method_no_token :
  truthy (_access_token (this authorized_client)) = true /\
  heap authorized_client !! 1 = Some {[ "method" := PInt 5 ]} /\
  let r := api service_answers "/profile" (Some 1) None authorized_client in
  fst r = Raised (AttributeError "'int' object has no attribute 'upper'") /\
  heap (snd r) !! 1 = Some ∅ /\
  (∅ : pydict) !! "access_token" = None.
Proof. evaluate. Qed.

(** * Further properties *)

(** ** The event registry: bind, unbind, trigger *)

Lemma list_remove_first (cb : callback) (pre post : list callback) :
  cb ∉ pre ->
  GeniEvent.list_remove cb (pre ++ cb :: post) = Some (pre ++ post)%list.
Proof.
  induction pre as [|y pre IH]; intros Hnotin; simpl.
  - by rewrite decide_True.
  - apply not_elem_of_cons in Hnotin as [Hne Hpre].
    rewrite decide_False by done. by rewrite IH.
Qed.

Lemma list_remove_snoc (cb : callback) (l : list callback) :
  GeniEvent.list_remove cb (l ++ [cb]) =
    Some (match GeniEvent.list_remove cb l with
          | Some rest => rest ++ [cb]
          | None => l
          end)%list.
Proof.
  induction l as [|y l IH]; simpl.
  - by rewrite decide_True.
  - destruct (decide (cb = y)); [done|]. rewrite IH.
    by destruct (GeniEvent.list_remove cb l).
Qed.

Lemma list_remove_Permutation (cb : callback) (l rest : list callback) :
  GeniEvent.list_remove cb l = Some rest -> l ≡ₚ cb :: rest.
Proof.
  revert rest. induction l as [|y l IH]; intros rest; simpl; [done|].
  destruct (decide (cb = y)) as [->|Hne].
  - by intros [= ->].
  - destruct (GeniEvent.list_remove cb l) as [rest'|]; [|done].
    intros [= <-]. rewrite (IH rest' eq_refl). apply Permutation_swap.
Qed.

(** X1.  [bind] appends: the event's subscribers are the earlier ones,
    in their order, followed by the new callback, which is added even
    when it is subscribed already; an event without a list gets one; the
    lists of the other events are untouched. *)
Theorem bind_appends (event other : string) (cb : callback) (self : GeniEvent.t) :
  other <> event ->
  GeniEvent.subscribers event (GeniEvent.bind event cb self)
    = Some (default [] (GeniEvent.subscribers event self) ++ [cb])%list /\
  GeniEvent.subscribers other (GeniEvent.bind event cb self)
    = GeniEvent.subscribers other self.
Proof.
  intros Hne%not_eq_sym. unfold GeniEvent.subscribers, GeniEvent.bind. simpl.
  destruct (GeniEvent._events self !! event) as [subs|] eqn:Hsubs; simpl.
  - split.
    + by rewrite lookup_insert_eq, Hsubs.
    + by rewrite lookup_insert_ne.
  - split.
    + by rewrite !lookup_insert_eq.
    + by rewrite !lookup_insert_ne.
Qed.

(** X2.  [unbind] without a callback drops the event with its whole
    subscriber list and leaves the other events alone; a [trigger] of the
    event then calls nobody.  On an event that has no list, [unbind] is a
    silent no-op, with or without a callback. *)
Theorem unbind_event_clears (event other : string) (args : list pyval)
    (self : GeniEvent.t) :
  other <> event ->
  exists self',
    GeniEvent.unbind event None self = Returned self' /\
    GeniEvent.subscribers event self' = None /\
    GeniEvent.subscribers other self' = GeniEvent.subscribers other self /\
    GeniEvent.trigger event args self' = [] /\
    match GeniEvent.subscribers event self with
    | None => forall cb, GeniEvent.unbind event cb self = Returned self
    | Some _ => True
    end.
Proof.
  intros Hne%not_eq_sym. unfold GeniEvent.unbind, GeniEvent.subscribers, GeniEvent.trigger.
  destruct (GeniEvent._events self !! event) as [subs|] eqn:Hsubs.
  - eexists. split; [done|]. simpl.
    by rewrite lookup_delete_eq, lookup_delete_ne.
  - exists self. by rewrite Hsubs.
Qed.

(** X3.  [unbind] with a subscribed callback removes its first
    occurrence and nothing else: the subscribers before it and after it,
    later occurrences of the same callback among them, keep their order,
    and the other events are untouched. *)
Theorem unbind_removes_first (event other : string) (cb : callback)
    (pre post : list callback) (self : GeniEvent.t) :
  GeniEvent.subscribers event self = Some (pre ++ cb :: post)%list ->
  cb ∉ pre ->
  other <> event ->
  exists self',
    GeniEvent.unbind event (Some cb) self = Returned self' /\
    GeniEvent.subscribers event self' = Some (pre ++ post)%list /\
    GeniEvent.subscribers other self' = GeniEvent.subscribers other self.
Proof.
  intros Hsubs Hnotin Hne%not_eq_sym. unfold GeniEvent.unbind, GeniEvent.subscribers in *.
  rewrite Hsubs, (list_remove_first cb pre post Hnotin).
  eexists. split; [done|]. simpl.
  by rewrite lookup_insert_eq, lookup_insert_ne.
Qed.

(** X4.  [unbind] of a callback right after its [bind] succeeds and
    leaves the event with a list, which is a rearrangement of the list
    before the [bind]: the same list when the callback was not subscribed,
    and otherwise the list without the callback's first occurrence and
    with the callback at the end. *)
Theorem bind_then_unbind (event : string) (cb : callback) (self : GeniEvent.t) :
  let old := default [] (GeniEvent.subscribers event self) in
  exists self' new,
    GeniEvent.unbind event (Some cb) (GeniEvent.bind event cb self) = Returned self' /\
    GeniEvent.subscribers event self' = Some new /\
    new = match GeniEvent.list_remove cb old with
          | Some rest => (rest ++ [cb])%list
          | None => old
          end /\
    old ≡ₚ new.
Proof.
  simpl. unfold GeniEvent.unbind.
  assert (Hbound : GeniEvent._events (GeniEvent.bind event cb self) !! event
                   = Some (default [] (GeniEvent.subscribers event self) ++ [cb])%list).
  { unfold GeniEvent.subscribers, GeniEvent.bind. simpl.
    destruct (GeniEvent._events self !! event) as [subs|] eqn:Hsubs; simpl.
    - by rewrite lookup_insert_eq, Hsubs.
    - by rewrite !lookup_insert_eq. }
  rewrite Hbound, list_remove_snoc.
  eexists _, _. split; [done|]. split.
  { unfold GeniEvent.subscribers. simpl. by rewrite lookup_insert_eq. }
  split; [done|].
  destruct (GeniEvent.list_remove cb _) as [rest|] eqn:Hrm; [|done].
  rewrite (list_remove_Permutation _ _ _ Hrm).
  by rewrite Permutation_cons_append.
Qed.

(** X5.  A [trigger] after a [bind] calls the earlier subscribers first,
    as it did before, and the new callback last, with the same arguments;
    triggers of the other events are as they were. *)
Theorem trigger_after_bind (event other : string) (cb : callback)
    (args : list pyval) (self : GeniEvent.t) :
  other <> event ->
  GeniEvent.trigger event args (GeniEvent.bind event cb self)
    = (GeniEvent.trigger event args self ++ [Called cb args])%list /\
  GeniEvent.trigger other args (GeniEvent.bind event cb self)
    = GeniEvent.trigger other args self.
Proof.
  intros Hne%not_eq_sym. unfold GeniEvent.trigger, GeniEvent.bind. simpl.
  destruct (GeniEvent._events self !! event) as [subs|] eqn:Hsubs; simpl.
  - split.
    + rewrite lookup_insert_eq, Hsubs. simpl. by rewrite fmap_app.
    + by rewrite lookup_insert_ne.
  - split.
    + by rewrite !lookup_insert_eq.
    + by rewrite !lookup_insert_ne.
Qed.

(** ** The constructor and the status *)

Lemma since_app (m m' : machine) (es : list effect) :
  trace m' = (trace m ++ es)%list -> since m m' = es.
Proof. intros H. unfold since. by rewrite H, drop_app_length. Qed.

Lemma construct_returns (dicts : list pydict) (app_id : option string)
    (host : string) (cookies logging : bool) (m0 : machine) :
  construct dicts app_id host cookies logging = (Returned tt, m0) ->
  truthy app_id = true /\
  m0 = {| this := {| _app_id := app_id; _host := host; _cookies := cookies;
                     _logging := logging; _access_token := None;
                     _status := "unknown";
                     Event := {| GeniEvent._events := ∅ |} |};
          heap := dicts; trace := [] |}.
Proof.
  unfold construct, __init__. exec.
  destruct (truthy app_id); exec; [|done]. by intros [= <-].
Qed.

(** X6.  Construction succeeds exactly when the application identifier
    is a non-empty string.  The new client has the configuration it was
    given, no token, the status unknown and no subscribers, and nothing
    has been printed, sent or called; a failed construction prints its
    message first when logging is on. *)
Theorem construct_outcome (dicts : list pydict) (app_id : option string)
    (host : string) (cookies logging : bool) :
  construct dicts app_id host cookies logging =
    let self :=
      {| _app_id := app_id; _host := host; _cookies := cookies; _logging := logging;
         _access_token := None; _status := "unknown";
         Event := {| GeniEvent._events := ∅ |} |} in
    if truthy app_id
    then (Returned tt, {| this := self; heap := dicts; trace := [] |})
    else (Raised (ValueError "Geni Python SDK requires an Application ID"),
          {| this := self; heap := dicts;
             trace := if logging
                      then [Printed [PStr "[Geni SDK]";
                                     PStr "Geni Python SDK requires an Application ID"]]
                      else [] |}).
Proof.
  unfold construct, __init__. exec.
  destruct (truthy app_id); exec; [done|]. by destruct logging.
Qed.

(** X7.  A [_set_status] that changes the status stores the new value
    and calls every subscriber of ['auth:statusChange'] once, in
    subscription order, with the new status as the only argument. *)
Theorem set_status_notifies (status : string) (subs : list callback) (m : machine) :
  _status (this m) <> status ->
  GeniEvent.subscribers "auth:statusChange" (Event (this m)) = Some subs ->
  _set_status status m =
    (Returned tt,
     {| this := with_status status (this m); heap := heap m;
        trace := (trace m ++ ((fun cb => Called cb [PStr status]) <$> subs))%list |}).
Proof.
  intros Hne Hsubs. rewrite _set_status_run. unfold published, GeniEvent.trigger.
  rewrite bool_decide_eq_false_2 by done.
  unfold GeniEvent.subscribers in Hsubs. by rewrite Hsubs.
Qed.

(** ** get_status *)

(** X8.  Without a token [get_status] does not go to the network: it
    reports [{'status': 'unknown', 'access_token': None}], sets the
    status to unknown and leaves the caller's dictionaries alone. *)
Theorem get_status_offline (net : network) (cb : option callback) (m : machine) :
  truthy (_access_token (this m)) = false ->
  let r := get_status net cb m in
  fst r = Returned (PDict (status_dict "unknown" None)) /\
  this (snd r) = with_status "unknown" (this m) /\
  heap (snd r) = heap m /\
  requests_of (since m (snd r)) = [].
Proof.
  intros Htok. rewrite (get_status_without_token net cb m Htok). simpl.
  split; [done|]. split; [done|]. split; [done|].
  erewrite since_app; [|reflexivity].
  unfold published, GeniEvent.trigger, requests_of.
  rewrite omap_app.
  assert (Hcalls : forall (l : list callback) args,
    omap (fun e => match e with Requested rq => Some rq | _ => None end)
      ((fun c => Called c args) <$> l) = []).
  { intros l args. by induction l. }
  case_bool_decide; [|destruct (_ !! _); [rewrite Hcalls|]]; by destruct cb.
Qed.

(** ** api: the request and the bodies *)

Lemma requests_of_app (es es' : list effect) :
  requests_of (es ++ es') = (requests_of es ++ requests_of es')%list.
Proof. apply omap_app. Qed.

Lemma requests_of_trigger (event : string) (args : list pyval) (ev : GeniEvent.t) :
  requests_of (GeniEvent.trigger event args ev) = [].
Proof.
  unfold GeniEvent.trigger. destruct (_ !! _) as [l|]; [|done]. by induction l.
Qed.

Lemma requests_of_published (status : string) (self : GeniSDK) :
  requests_of (published status self) = [].
Proof. unfold published. case_bool_decide; [done|]. apply requests_of_trigger. Qed.

(** [api] up to its [try]: the dictionary it goes on with holds the
    parameters to send; it is the caller's when that one is not empty and
    a new one otherwise, and no other dictionary has changed. *)
Lemma api_prologue (net : network) (path : string) (params : option ref)
    (cb : option callback) (m : machine) (s : string) :
  popped_method params m = PStr s ->
  exists r' m1,
    api net path params cb m =
      try_except
        (api_try net (upper s) (_host (this m) ++ "/api/" ++ lstrip_slash path) r' cb)
        (api_except cb) m1 /\
    this m1 = this m /\ trace m1 = trace m /\
    default ∅ (heap m1 !! r') = sent_params params m /\
    (forall r, r <> r' -> r < length (heap m) -> heap m1 !! r = heap m !! r) /\
    (r' = length (heap m) \/
     exists d, params = Some r' /\ heap m !! r' = Some d /\ d <> ∅).
Proof.
  intros Hpop. destruct (params_cases params m) as [(r & d & -> & Hd & Hne)|Hnew].
  - rewrite (api_on_caller_dict net path r d cb m Hd Hne), Hpop.
    assert (Hlt : r < length (heap m)) by by eapply lookup_lt_Some.
    eexists r, _. split; [reflexivity|]. simpl.
    split; [done|]. split; [done|]. split; [|split].
    + rewrite list_lookup_insert_eq by done. unfold sent_params. simpl.
      rewrite Hd. simpl. by destruct (truthy _).
    + intros r0 Hr0 _. by rewrite list_lookup_insert_ne.
    + right. by exists d.
  - rewrite (api_on_new_dict net path params cb m Hnew).
    assert (Hs : upper s = "GET").
    { destruct params as [r|]; simpl in Hpop, Hnew.
      - rewrite Hnew, lookup_empty in Hpop. simpl in Hpop. by injection Hpop as <-.
      - by injection Hpop as <-. }
    rewrite Hs.
    eexists (length (heap m)), _. split; [reflexivity|]. simpl.
    split; [done|]. split; [done|]. split; [|split].
    + rewrite lookup_app_r, Nat.sub_diag by done. simpl.
      unfold sent_params.
      assert (Hd : match params with
                   | Some r => default ∅ (heap m !! r)
                   | None => ∅
                   end = (∅ : pydict)) by by destruct params.
      rewrite Hd, delete_empty. by destruct (truthy _).
    + intros r0 _ Hr0. by rewrite lookup_app_l.
    + by left.
Qed.

Ltac api_try_exact :=
  exec; unfold extend, with_this, delivered, error_logged; simpl;
  rewrite <- ?app_assoc; reflexivity.

(** The [try] of [api] with its handler, case by case on what the
    network answers to the request. *)
Lemma api_try_run (net : network) (method url : string) (params : ref)
    (cb : option callback) (m : machine) :
  let rq := request_of method url (default ∅ (heap m !! params)) in
  let r := try_except (api_try net method url params cb) (api_except cb) m in
  let caught e :=
    (Returned (error_value e),
     extend m (Requested rq :: delivered cb [error_value e])) in
  let caught_logged err e :=
    (Returned (error_value e),
     extend m (Requested rq :: error_logged (this m) err ++ delivered cb [error_value e])) in
  match net rq with
  | NetworkError msg => r = caught (RequestException msg)
  | Response (Undecodable msg) => r = caught (JSONDecodeError msg)
  | Response (Decoded data) =>
      match data with
      | PDict d =>
          match d !! "error" with
          | None => r = (Returned data, extend m (Requested rq :: delivered cb [data]))
          | Some (PDict e) =>
              if py_eq_str (default PNone (e !! "type")) "OAuthException"
              then r = (Returned data,
                        extend (with_this (demoted (this m)) m)
                          (Requested rq :: error_logged (this m) (PDict e) ++
                           published "unauthorized" (this m) ++ delivered cb [data]))
              else r = (Returned data,
                        extend m (Requested rq :: error_logged (this m) (PDict e) ++
                                  delivered cb [data]))
          | Some err =>
              r = caught_logged err
                    (AttributeError
                       ("'" ++ type_name err ++ "' object has no attribute 'get'"))
          end
      | PList l =>
          if existsb (fun x => py_eq_str x "error") l
          then r = caught (TypeError "list indices must be integers or slices, not str")
          else r = (Returned data, extend m (Requested rq :: delivered cb [data]))
      | PStr s =>
          if is_substring "error" s
          then r = caught (TypeError "string indices must be integers, not 'str'")
          else r = (Returned data, extend m (Requested rq :: delivered cb [data]))
      | _ =>
          r = caught (TypeError
                        ("argument of type '" ++ type_name data ++ "' is not iterable"))
      end
  end.
Proof.
  unfold api_try, api_except, request_of. exec.
  match goal with |- context [net ?rq] => destruct (net rq) as [msg|[data|msg]] end;
    [api_try_exact| |api_try_exact].
  destruct data as [|b|z|f|s|l|d]; simpl; try api_try_exact.
  - destruct (is_substring "error" s); api_try_exact.
  - destruct (existsb _ l); api_try_exact.
  - destruct (d !! "error") as [err|] eqn:Herr; simpl; [|api_try_exact].
    destruct err as [| | | | | |e]; simpl; try api_try_exact.
    destruct (py_eq_str _ _); api_try_exact.
Qed.

(** [api] with a string for the method, case by case on what the network
    answers to its request: what it returns, the client afterwards and
    what it adds to the trace after the request. *)
Lemma api_cases (net : network) (path : string) (params : option ref)
    (cb : option callback) (m : machine) (s : string) :
  popped_method params m = PStr s ->
  exists hp : list pydict,
    (forall r, params <> Some r -> r < length (heap m) -> hp !! r = heap m !! r) /\
    (forall r, heap m !! r = Some ∅ -> hp !! r = Some ∅) /\
    let rq := api_request (upper s) path params m in
    let out v self es :=
      api net path params cb m =
        (Returned v,
         {| this := self; heap := hp;
            trace := (trace m ++ Requested rq :: es ++ delivered cb [v])%list |}) in
    match net rq with
    | NetworkError msg => out (error_value (RequestException msg)) (this m) []
    | Response (Undecodable msg) => out (error_value (JSONDecodeError msg)) (this m) []
    | Response (Decoded data) =>
        match data with
        | PDict d =>
            match d !! "error" with
            | None => out data (this m) []
            | Some (PDict e) =>
                if py_eq_str (default PNone (e !! "type")) "OAuthException"
                then out data (demoted (this m))
                       (error_logged (this m) (PDict e) ++
                        published "unauthorized" (this m))%list
                else out data (this m) (error_logged (this m) (PDict e))
            | Some err =>
                out (error_value
                       (AttributeError
                          ("'" ++ type_name err ++ "' object has no attribute 'get'")))
                  (this m) (error_logged (this m) err)
            end
        | PList l =>
            if existsb (fun x => py_eq_str x "error") l
            then out (error_value
                        (TypeError "list indices must be integers or slices, not str"))
                   (this m) []
            else out data (this m) []
        | PStr s' =>
            if is_substring "error" s'
            then out (error_value
                        (TypeError "string indices must be integers, not 'str'"))
                   (this m) []
            else out data (this m) []
        | _ =>
            out (error_value
                   (TypeError
                      ("argument of type '" ++ type_name data ++ "' is not iterable")))
              (this m) []
        end
    end.
Proof.
  intros Hpop.
  destruct (api_prologue net path params cb m s Hpop)
    as (r' & m1 & Hapi & Hthis & Htrace & Hsent & Hframe & Hr').
  exists (heap m1). split; [|split].
  - intros r Hr Hlt. apply Hframe; [|done].
    destruct Hr' as [-> | (d & Hp & _ & _)]; [lia | by intros ->].
  - intros r Hr.
    assert (Hlt : r < length (heap m)) by by eapply lookup_lt_Some.
    rewrite Hframe; [done| |done].
    destruct Hr' as [-> | (d & _ & Hd & Hne)]; [lia|].
    intros ->. apply Hne.
    assert (Heq : Some d = Some (∅ : pydict)) by (etrans; [symmetry; exact Hd|exact Hr]).
    by injection Heq.
  - pose proof (api_try_run net (upper s)
                  (_host (this m) ++ "/api/" ++ lstrip_slash path) r' cb m1) as Hrun.
    cbv zeta in Hrun. rewrite Hsent, <- Hapi in Hrun.
    unfold api_request. cbv zeta.
    unfold extend, with_this in Hrun. simpl in Hrun. rewrite Hthis, Htrace in Hrun.
    destruct (net _) as [msg|[data|msg]]; [done| |done].
    destruct data as [|b|z|f|s'|l|d]; try done;
      try (by destruct (is_substring _ _)); try (by destruct (existsb _ _)).
    destruct (d !! "error") as [[| | | | | |e]|]; try done.
    destruct (py_eq_str _ _); [|done]. by rewrite <- app_assoc.
Qed.

Lemma requests_of_delivered (cb : option callback) (args : list pyval) :
  requests_of (delivered cb args) = [].
Proof. by destruct cb. Qed.

Lemma requests_of_error_logged (self : GeniSDK) (err : pyval) :
  requests_of (error_logged self err) = [].
Proof. unfold error_logged. by destruct (_logging self). Qed.

Lemma last_delivered (l es : list effect) (e : effect) (c : callback)
    (args : list pyval) :
  last (l ++ e :: es ++ delivered (Some c) args) = Some (Called c args).
Proof. rewrite app_comm_cons, app_assoc. apply last_snoc. Qed.

Ltac api_case_split net Hcase :=
  cbv zeta in Hcase;
  let data := fresh "data" in
  match type of Hcase with
  | context [net ?rq] => destruct (net rq) as [?msg|[data|?msg]] eqn:Hnet
  end;
  [ | destruct data as [| | | |?s'|?l|?d];
      [ | | | | destruct (is_substring _ _) eqn:?
        | destruct (existsb _ _) eqn:?
        | destruct (_ !! "error") as [[| | | | | |?e]|] eqn:Herr;
          [ | | | | | | destruct (py_eq_str _ _) eqn:Hty | ] ]
    | ].

(** X9.  An [api] call whose method is a string sends exactly one
    request.  For a method in ASCII it is this one: the method in upper
    case (['GET'] when the caller names none), the URL [host/api/path]
    with the leading slashes of [path] dropped, and the caller's
    parameters without ['method'] and with the token when one is held, in
    the query string of a [GET] and in the JSON body of any other
    method. *)
Theorem api_sends_one_request (net : network) (path : string)
    (params : option ref) (cb : option callback) (m : machine) (s : string) :
  popped_method params m = PStr s ->
  is_ascii s = true ->
  exists rest,
    since m (snd (api net path params cb m))
      = Requested
          {| rq_method := upper s;
             rq_url := _host (this m) ++ "/api/" ++ lstrip_slash path;
             rq_params := if bool_decide (upper s = "GET")
                          then Some (sent_params params m) else None;
             rq_json := if bool_decide (upper s = "GET")
                        then None else Some (sent_params params m) |} :: rest /\
    requests_of rest = [].
Proof.
  intros Hpop _.
  destruct (api_cases net path params cb m s Hpop) as (hp & _ & _ & Hcase).
  api_case_split net Hcase; rewrite Hcase; simpl;
    (eexists; split; [by apply since_app|]);
    by rewrite ?requests_of_app, ?requests_of_error_logged, ?requests_of_published,
         ?requests_of_delivered.
Qed.

Lemma api_heap_frame (net : network) (path : string)
    (params : option ref) (cb : option callback) (m : machine)
    (r : ref) (d : pydict) :
  heap m !! r = Some d ->
  params <> Some r \/ d = ∅ ->
  heap (snd (api net path params cb m)) !! r = Some d.
Proof.
  intros Hd Hr.
  assert (Hlt : r < length (heap m)) by by eapply lookup_lt_Some.
  destruct (popped_method params m) as [| | | |s| |] eqn:Hpop.
  5:{ destruct (api_cases net path params cb m s Hpop) as (hp & Hf1 & Hf2 & Hcase).
      assert (Hhp : hp !! r = Some d).
      { destruct Hr as [Hr | ->]; [by rewrite Hf1 | by apply Hf2]. }
      api_case_split net Hcase; by rewrite Hcase. }
  all: destruct (params_cases params m) as [(rc & dc & -> & Hdc & Hne)|Hnew];
    [ rewrite (api_on_caller_dict net path rc dc cb m Hdc Hne), Hpop; simpl;
      rewrite list_lookup_insert_ne; [done|];
      intros ->; destruct Hr as [Hr | ->]; [done|];
      assert (Heq : Some dc = Some (∅ : pydict))
        by (etrans; [symmetry; exact Hdc|exact Hd]);
      by injection Heq
    | exfalso; destruct params as [rc|]; simpl in Hpop, Hnew;
      [by rewrite Hnew, lookup_empty in Hpop | done] ].
Qed.

(** X10.  [api] writes to no dictionary but the one it is passed, and
    not to that one when it is empty: every other dictionary of the
    caller, and an empty dictionary passed as [params], is after the call
    what it was before, whether the call returned or raised. *)
Theorem api_leaves_other_dicts (net : network) (path : string)
    (params : option ref) (cb : option callback) (m : machine)
    (r : ref) (d : pydict) :
  heap m !! r = Some d ->
  params <> Some r \/ d = ∅ ->
  heap (snd (api net path params cb m)) !! r = Some d.
Proof. intros Hd Hr. by apply api_heap_frame. Qed.

(** X11.  The callback of an [api] call is handed what the call returns:
    when the call returns, the callback's call with the returned value is
    the last thing that happened; a call that raises, at the method, has
    called nobody and done nothing outside. *)
Theorem api_callback_gets_result (net : network) (path : string)
    (params : option ref) (c : callback) (m : machine) :
  let r := api net path params (Some c) m in
  match fst r with
  | Returned v => last (trace (snd r)) = Some (Called c [v])
  | Raised _ => since m (snd r) = []
  end.
Proof.
  simpl. destruct (popped_method params m) as [| | | |s| |] eqn:Hpop.
  5:{ destruct (api_cases net path params (Some c) m s Hpop) as (hp & _ & _ & Hcase).
      api_case_split net Hcase; rewrite Hcase; cbn [fst snd trace];
        apply last_delivered. }
  all: destruct (api_stops_early net path params (Some c) m) as (m1 & _ & Htr & ->);
    [by rewrite Hpop|]; simpl; unfold since; rewrite Htr; apply drop_all.
Qed.





(** ** get_status with a token *)

(** [get_status] on a client that holds a token, from what its [api]
    call returned. *)
Lemma get_status_after_api (net : network) (cb : option callback)
    (m m1 : machine) (v : pyval) :
  truthy (_access_token (this m)) = true ->
  api net "/user" None None m = (Returned v, m1) ->
  get_status net cb m =
    match v with
    | PDict d =>
        if py_truthy (default PNone (d !! "error"))
        then (Returned (PDict (status_dict "unknown" None)),
              extend (with_this (with_status "unknown" (with_access_token None (this m1))) m1)
                (published "unknown" (this m1) ++
                 delivered cb [PDict (status_dict "unknown" None)]))
        else (Returned (PDict (status_dict "authorized" (_access_token (this m1)))),
              extend (with_this (with_status "authorized" (this m1)) m1)
                (published "authorized" (this m1) ++
                 delivered cb
                   [PDict (status_dict "authorized" (_access_token (this m1)))]))
    | _ => (Raised (AttributeError
                      ("'" ++ type_name v ++ "' object has no attribute 'get'")), m1)
    end.
Proof.
  intros Htok Hapi. unfold get_status. exec. rewrite Htok, Hapi. simpl.
  unfold py_get, extend, with_this, delivered.
  destruct v as [| | | | | |d]; try done. simpl.
  destruct (py_truthy _); exec; by rewrite <- app_assoc.
Qed.

Lemma error_text_truthy (v : pyval) :
  py_truthy (PStr ("'" ++ type_name v ++ "' object has no attribute 'get'")) = true.
Proof. done. Qed.

(** X16.  With a token held, [get_status] asks the service once, a
    [GET] of [host/api/user] with the token in the query string.  When
    the answer is a dictionary without an ['error'] entry it reports
    authorized with the token, keeps the token and sets the status to
    authorized. *)
Theorem get_status_valid_token (net : network) (cb : option callback)
    (m : machine) (tok : string) (d : pydict) :
  _access_token (this m) = Some tok ->
  tok <> "" ->
  net (liveness_request m) = Response (Decoded (PDict d)) ->
  d !! "error" = None ->
  let r := get_status net cb m in
  liveness_request m =
    {| rq_method := "GET"; rq_url := _host (this m) ++ "/api/user";
       rq_params := Some {[ "access_token" := PStr tok ]}; rq_json := None |} /\
  fst r = Returned (PDict (status_dict "authorized" (Some tok))) /\
  this (snd r) = with_status "authorized" (this m) /\
  since m (snd r) =
    (Requested (liveness_request m) :: published "authorized" (this m) ++
     delivered cb [PDict (status_dict "authorized" (Some tok))])%list.
Proof.
  intros Htok Hne Hanswer Herr.
  assert (Htruthy : truthy (_access_token (this m)) = true).
  { rewrite Htok. simpl. by rewrite bool_decide_eq_false_2. }
  split.
  { unfold liveness_request, api_request, request_of, sent_params. simpl.
    rewrite Htruthy, Htok. simpl. by rewrite delete_empty. }
  destruct (api_cases net "/user" None None m "GET" eq_refl) as (hp & _ & _ & Hcase).
  cbv zeta in Hcase.
  change (api_request (upper "GET") "/user" None m) with (liveness_request m) in Hcase.
  rewrite Hanswer, Herr in Hcase.
  rewrite (get_status_after_api net cb m _ _ Htruthy Hcase), Herr. simpl.
  rewrite Htok. split; [done|]. split; [done|].
  unfold since. simpl. rewrite <- app_assoc. by rewrite drop_app_length.
Qed.

Ltac liveness net m Hcase :=
  destruct (api_cases net "/user" None None m "GET" eq_refl) as (? & _ & _ & Hcase);
  cbv zeta in Hcase;
  change (api_request (upper "GET") "/user" None m) with (liveness_request m) in Hcase.

(** X17.  With a token held, any ['error'] entry in the answer to the
    liveness check, other than an empty dictionary, makes [get_status]
    drop the token: whatever the error is about, it reports unknown
    without a token and sets the status to unknown. *)
Theorem get_status_error_clears_token (net : network) (cb : option callback)
    (m : machine) (d : pydict) (err : pyval) :
  truthy (_access_token (this m)) = true ->
  net (liveness_request m) = Response (Decoded (PDict d)) ->
  d !! "error" = Some err ->
  err <> PDict ∅ ->
  let r := get_status net cb m in
  fst r = Returned (PDict (status_dict "unknown" None)) /\
  _access_token (this (snd r)) = None /\
  _status (this (snd r)) = "unknown".
Proof.
  intros Htruthy Hanswer Herr Hne.
  liveness net m Hcase. rewrite Hanswer, Herr in Hcase.
  assert (Hdict : forall e, err = PDict e ->
            py_truthy (default PNone (d !! "error")) = true).
  { intros e ->. rewrite Herr. simpl. apply negb_true_iff, bool_decide_eq_false_2.
    by intros ->. }
  destruct err as [| | | | | |e];
    try (rewrite (get_status_after_api net cb m _ _ Htruthy Hcase); simpl;
         by rewrite lookup_singleton_eq).
  destruct (py_eq_str _ _);
    rewrite (get_status_after_api net cb m _ _ Htruthy Hcase), (Hdict e eq_refl); done.
Qed.

(** X18.  With a token held, a transport-level failure of the liveness
    check makes [get_status] drop the token and report unknown, provided
    the failure has a description.  [get_status] tells failure from
    success by the truth of the ['error'] text [api] returns, so a failure
    whose description is empty passes for success: the token is kept and
    reported as authorized. *)
Theorem get_status_transport_failure (net : network) (cb : option callback)
    (m : machine) (e : exn) :
  truthy (_access_token (this m)) = true ->
  failure_of (net (liveness_request m)) = Some e ->
  let r := get_status net cb m in
  if bool_decide (str_of_exn e = "")
  then fst r = Returned (PDict (status_dict "authorized" (_access_token (this m)))) /\
       this (snd r) = with_status "authorized" (this m)
  else fst r = Returned (PDict (status_dict "unknown" None)) /\
       this (snd r) = with_status "unknown" (with_access_token None (this m)).
Proof.
  intros Htruthy Hfail. liveness net m Hcase.
  assert (Hapi : exists m1, this m1 = this m /\
            api net "/user" None None m = (Returned (error_value e), m1)).
  { destruct (net (liveness_request m)) as [msg|[data|msg]]; simplify_eq/=;
      by eexists (Build_machine _ _ _). }
  destruct Hapi as (m1 & Hthis & Hapi).
  rewrite (get_status_after_api net cb m _ _ Htruthy Hapi). unfold error_value.
  rewrite lookup_singleton_eq. simpl. rewrite Hthis.
  by case_bool_decide.
Qed.

(** X19.  [get_status] can raise.  With a token held, when the answer
    to the liveness check is a list or a string that [api] returns as it
    is, the [.get('error')] on it raises an [AttributeError] out of
    [get_status]: the client keeps its token and its status, no event is
    published and the callback is not called. *)
Theorem get_status_raises_on_plain_body (net : network) (cb : option callback)
    (m : machine) (data : pyval) :
  truthy (_access_token (this m)) = true ->
  net (liveness_request m) = Response (Decoded data) ->
  plain_body data = true ->
  let r := get_status net cb m in
  fst r = Raised (AttributeError
                    ("'" ++ type_name data ++ "' object has no attribute 'get'")) /\
  this (snd r) = this m /\
  since m (snd r) = [Requested (liveness_request m)].
Proof.
  intros Htruthy Hanswer Hplain. liveness net m Hcase. rewrite Hanswer in Hcase.
  destruct data as [| | | |s|l|]; try done; simpl in Hplain;
    apply negb_true_iff in Hplain; rewrite Hplain in Hcase;
    rewrite (get_status_after_api net cb m _ _ Htruthy Hcase); simpl;
    (split; [done|]); (split; [done|]); by apply since_app.
Qed.

(** X20.  What [get_status] reports is what the session is afterwards.
    When it returns, it reports either authorized with the token the
    client holds, and the status is authorized, or unknown with no token,
    and the status is unknown and no usable token is held; it never
    reports unauthorized.  When it raises, the client is as it was. *)
Theorem get_status_report (net : network) (cb : option callback) (m : machine) :
  let r := get_status net cb m in
  match fst r with
  | Returned v =>
      (v = PDict (status_dict "authorized" (_access_token (this (snd r)))) /\
       _status (this (snd r)) = "authorized" /\
       _access_token (this (snd r)) = _access_token (this m) /\
       truthy (_access_token (this m)) = true) \/
      (v = PDict (status_dict "unknown" None) /\
       _status (this (snd r)) = "unknown" /\
       truthy (_access_token (this (snd r))) = false)
  | Raised e =>
      this (snd r) = this m /\ exists msg, e = AttributeError msg
  end.
Proof.
  simpl. destruct (truthy (_access_token (this m))) eqn:Htruthy.
  2:{ rewrite (get_status_without_token net cb m Htruthy). simpl. by right. }
  liveness net m Hcase.
  api_case_split net Hcase;
    rewrite (get_status_after_api net cb m _ _ Htruthy Hcase); simpl;
    rewrite ?lookup_singleton_eq, ?Herr; simpl;
    try (by right); try (by eauto);
    try (destruct (negb (bool_decide _)); simpl; first [by right | by left]).
  destruct (decide (e = ∅)) as [->|Hne]; [by rewrite lookup_empty in Hty|].
  rewrite bool_decide_eq_false_2 by done. simpl. by right.
Qed.

(** ** connect: the handshake *)

Lemma do_name_get (c : string) : "do_" ++ c ∈ OAuthHandler_methods <-> c = "get".
Proof.
  unfold OAuthHandler_methods. rewrite list_elem_of_singleton. simpl.
  split; [intros [= H]; exact H | by intros ->].
Qed.

(** [connect] on a client with an application identifier and no token,
    up to what the listener leaves behind. *)
Lemma connect_handshake (query_of : string -> gmap string (list string))
    (h : handshake) (cb : option callback) (m : machine) (app : string) :
  _app_id (this m) = Some app ->
  app <> "" ->
  truthy (_access_token (this m)) = false ->
  connect query_of h cb m =
    let opened :=
      extend m [Listening (port h);
                BrowserOpened (authorize_url (_host (this m)) app (port h))] in
    let finish (server : HTTPServer) (m1 : machine) :=
      let response := default no_response (oauth_response server) in
      let self :=
        if bool_decide (res_status response = "authorized")
        then with_access_token (res_access_token response) (this m1)
        else this m1 in
      (Returned tt,
       extend (with_this (with_status (res_status response) self) m1)
         (published (res_status response) self ++
          delivered cb [PDict (dict_of_result response)])) in
    match handle_request query_of (inbound h)
            {| server_port := port h; oauth_response := None |} opened with
    | (Returned server, m1) => finish server m1
    | (Raised e, m1) => (Raised e, m1)
    end.
Proof.
  intros Hid Hne Htok. unfold connect. exec. rewrite Hid, Htok. simpl.
  rewrite bool_decide_eq_false_2 by done. simpl.
  unfold authorize_url, extend, with_this, delivered. simpl.
  rewrite <- app_assoc. simpl.
  destruct (handle_request _ _ _ _) as [[server|e] m1]; [|done].
  case_bool_decide; exec; by rewrite <- app_assoc.
Qed.

Lemma handle_request_run (query_of : string -> gmap string (list string))
    (rq : request_line) (server : HTTPServer) (m : machine) :
  handle_request query_of rq server m =
    if bool_decide (command rq = "get")
    then match query_of (path rq) !! "access_token" with
         | Some (tok :: _) =>
             (Returned (set_oauth_response
                          {| res_status := "authorized"; res_access_token := Some tok;
                             res_error := None |} server),
              extend m [SentHeaders 200; SentBody close_page])
         | Some [] => (Returned server, extend m [SentHeaders 200])
         | None =>
             (Returned (set_oauth_response
                          {| res_status := "unknown"; res_access_token := None;
                             res_error := Some "Authorization failed or was cancelled" |}
                          server),
              extend m [SentHeaders 200; SentBody close_page])
         end
    else (Returned server,
          extend m match rq with
                   | Accepted c _ => error_answer c 501
                   | Refused c code => error_answer c code
                   | NoRequest => []
                   end).
Proof.
  unfold extend. destruct rq as [c p|c code|]; simpl.
  - unfold handle_request, do_get. case_bool_decide as Hcmd.
    + rewrite bool_decide_eq_true_2 by by apply do_name_get.
      exec. destruct (query_of p !! "access_token") as [[|tok more]|]; exec;
        by rewrite <- ?app_assoc.
    + rewrite bool_decide_eq_false_2 by by intros H%do_name_get.
      by rewrite send_error_run.
  - unfold handle_request. by rewrite send_error_run.
  - by rewrite app_nil_r, machine_eta.
Qed.

(** X21.  When the request the listener serves is accepted with its
    method spelled [get], so that it reaches the handler, and its query
    string has an [access_token], [connect] stores the first value of that
    parameter, and reports it: the browser is sent to the authorization
    page of the host with the listener's port in the redirect, the popup
    is answered with the page that closes it, the subscribers hear of the
    status authorized (when that is a change), and then the callback
    receives [{'status': 'authorized', 'access_token': tok}]. *)
Theorem connect_authorizes (query_of : string -> gmap string (list string))
    (h : handshake) (cb : option callback) (m : machine)
    (app p tok : string) (more : list string) :
  _app_id (this m) = Some app ->
  app <> "" ->
  truthy (_access_token (this m)) = false ->
  inbound h = Accepted "get" p ->
  query_of p !! "access_token" = Some (tok :: more) ->
  connect query_of h cb m =
    (Returned tt,
     {| this := with_status "authorized" (with_access_token (Some tok) (this m));
        heap := heap m;
        trace := (trace m ++
                  [Listening (port h);
                   BrowserOpened (authorize_url (_host (this m)) app (port h));
                   SentHeaders 200; SentBody close_page] ++
                  published "authorized" (this m) ++
                  delivered cb [PDict {[ "status" := PStr "authorized";
                                         "access_token" := PStr tok ]}])%list |}).
Proof.
  intros Hid Hne Htok Hin Hquery.
  rewrite (connect_handshake query_of h cb m app Hid Hne Htok). cbv zeta.
  rewrite handle_request_run, Hin. simpl. rewrite Hquery. simpl.
  unfold extend, with_this. simpl. by rewrite <- !app_assoc.
Qed.

(** X22.  When the request is accepted with its method spelled [get] and
    the query string has no [access_token], [connect] reports
    [{'status': 'unknown', 'error': 'Authorization failed or was cancelled'}]
    to the callback, stores nothing, sets the status to unknown and closes
    the popup all the same. *)
Theorem connect_cancelled (query_of : string -> gmap string (list string))
    (h : handshake) (cb : option callback) (m : machine) (app p : string) :
  _app_id (this m) = Some app ->
  app <> "" ->
  truthy (_access_token (this m)) = false ->
  inbound h = Accepted "get" p ->
  query_of p !! "access_token" = None ->
  connect query_of h cb m =
    (Returned tt,
     {| this := with_status "unknown" (this m);
        heap := heap m;
        trace := (trace m ++
                  [Listening (port h);
                   BrowserOpened (authorize_url (_host (this m)) app (port h));
                   SentHeaders 200; SentBody close_page] ++
                  published "unknown" (this m) ++
                  delivered cb
                    [PDict {[ "status" := PStr "unknown";
                              "error" := PStr "Authorization failed or was cancelled" ]}])%list |}).
Proof.
  intros Hid Hne Htok Hin Hquery.
  rewrite (connect_handshake query_of h cb m app Hid Hne Htok). cbv zeta.
  rewrite handle_request_run, Hin. simpl. rewrite Hquery. simpl.
  unfold extend, with_this. simpl. by rewrite <- !app_assoc.
Qed.

(** X23.  A [connect] on a client without a token returns, whatever
    arrives at the listener, and leaves the caller's dictionaries alone.
    The client holds a usable token afterwards only when the request
    line's method was [get], in lower case: the token then is the first
    [access_token] of the query string and the status is authorized.
    Otherwise the client holds no usable token, as before. *)
Theorem connect_stores_token_iff (query_of : string -> gmap string (list string))
    (h : handshake) (cb : option callback) (m : machine) :
  truthy (_app_id (this m)) = true ->
  truthy (_access_token (this m)) = false ->
  let r := connect query_of h cb m in
  fst r = Returned tt /\
  heap (snd r) = heap m /\
  if truthy (_access_token (this (snd r)))
  then command (inbound h) = "get" /\
       _status (this (snd r)) = "authorized" /\
       exists more,
         query_of (path (inbound h)) !! "access_token"
           = Some (default "" (_access_token (this (snd r))) :: more)
  else _access_token (this (snd r)) = _access_token (this m) \/
       _access_token (this (snd r)) = Some "".
Proof.
  intros Hid Htok.
  destruct (_app_id (this m)) as [app|] eqn:Happ; [|done].
  assert (Hne : app <> "").
  { intros ->. by simpl in Hid. }
  rewrite (connect_handshake query_of h cb m app Happ Hne Htok). cbv zeta.
  rewrite handle_request_run.
  case_bool_decide as Hcmd.
  - destruct (query_of (path (inbound h)) !! "access_token") as [[|tok more]|] eqn:Hq;
      simpl; rewrite ?Htok; try (by repeat split; left).
    destruct (negb (bool_decide (tok = ""))) eqn:Hnonempty.
    + repeat split; by eauto.
    + repeat split. right. apply negb_false_iff, bool_decide_eq_true in Hnonempty.
      by rewrite Hnonempty.
  - simpl. rewrite Htok. by repeat split; left.
Qed.

(** ** logout *)

(** X24.  [logout] sends one [GET] to [host/oauth/logout] with the
    application identifier as [client_id] and, when a token is held, the
    token as [access_token].  Whether that request is answered or fails,
    the subscribers then hear of the status unknown (when that is a
    change) and after them the callback is called, without arguments; a
    failure of the request is raised only after all that. *)
Theorem logout_effects (net : network) (cb : option callback) (m : machine) :
  truthy (_app_id (this m)) = true ->
  logout net cb m =
    (match net (logout_request (this m)) with
     | Response _ => Returned tt
     | NetworkError msg => Raised (RequestException msg)
     end,
     {| this := with_status "unknown" (with_access_token None (this m));
        heap := heap m;
        trace := (trace m ++ [Requested (logout_request (this m))] ++
                  published "unknown" (this m) ++ delivered cb [])%list |}).
Proof.
  intros Hid. unfold logout, logout_request. exec. rewrite Hid. simpl.
  unfold try_finally. exec.
  unfold delivered.
  destruct (net _) as [msg|b]; exec; by rewrite <- !app_assoc.
Qed.

(** X25.  A [logout] after a [logout] changes nothing in the client and
    publishes nothing: its request carries the [client_id] alone, and
    only the callback is called. *)
Theorem logout_twice (net net' : network) (cb cb' : option callback) (m : machine) :
  truthy (_app_id (this m)) = true ->
  let m1 := snd (logout net cb m) in
  let r := logout net' cb' m1 in
  this (snd r) = this m1 /\
  heap (snd r) = heap m /\
  since m1 (snd r) =
    (Requested {| rq_method := "GET"; rq_url := _host (this m) ++ "/oauth/logout";
                  rq_params := Some {[ "client_id" := py_of_opt (_app_id (this m)) ]};
                  rq_json := None |} :: delivered cb' [])%list.
Proof.
  intros Hid. simpl.
  destruct (logout_run net cb m Hid) as (rq & ->). simpl.
  match goal with |- context [logout net' cb' ?m1] =>
    unfold logout; exec; rewrite Hid; simpl; unfold try_finally; exec
  end.
  unfold published, delivered. simpl.
  destruct (net' _) as [msg|b]; exec; (split; [done|]); (split; [done|]);
    apply since_app; unfold published; simpl;
    by rewrite app_nil_r, <- !app_assoc.
Qed.

(** ** Programs: what stays as it is *)

Lemma connect_frame (query_of : string -> gmap string (list string))
    (h : handshake) (cb : option callback) (m : machine) :
  let m' := snd (connect query_of h cb m) in
  heap m' = heap m /\ Event (this m') = Event (this m) /\
  (_status (this m') = _status (this m) \/
   _status (this m') = "authorized" \/ _status (this m') = "unknown").
Proof.
  simpl. destruct (truthy (_app_id (this m))) eqn:Hid.
  2:{ unfold connect. exec. rewrite Hid. simpl. by eauto. }
  destruct (truthy (_access_token (this m))) eqn:Htok.
  { unfold connect. exec. rewrite Hid, Htok. simpl. exec. by eauto. }
  destruct (_app_id (this m)) as [app|] eqn:Happ; [|done].
  assert (Hne : app <> "") by (intros ->; by simpl in Hid).
  rewrite (connect_handshake query_of h cb m app Happ Hne Htok). cbv zeta.
  rewrite handle_request_run.
  case_bool_decide; [|simpl; by eauto].
  destruct (query_of _ !! "access_token") as [[|tok more]|]; simpl; by eauto.
Qed.

Lemma get_status_frame (net : network) (cb : option callback) (m : machine) :
  let m' := snd (get_status net cb m) in
  (forall r d, heap m !! r = Some d -> heap m' !! r = Some d) /\
  Event (this m') = Event (this m) /\
  (_status (this m') = _status (this m) \/
   _status (this m') = "authorized" \/ _status (this m') = "unknown").
Proof.
  simpl. destruct (truthy (_access_token (this m))) eqn:Htruthy.
  2:{ rewrite (get_status_without_token net cb m Htruthy). simpl. by eauto. }
  assert (Hheap : forall r d, heap m !! r = Some d ->
            heap (snd (api net "/user" None None m)) !! r = Some d).
  { intros r d Hd. apply api_heap_frame; [done | by left]. }
  liveness net m Hcase.
  api_case_split net Hcase; rewrite Hcase in Hheap;
    rewrite (get_status_after_api net cb m _ _ Htruthy Hcase); simpl;
    rewrite ?lookup_singleton_eq, ?Herr; simpl;
    try (destruct (negb (bool_decide _))); simpl; by eauto.
Qed.

(** X26.  The status of a client is always one of unknown, authorized
    and unauthorized: from its construction on, at every operation
    boundary of every program, whatever the environment answers. *)
Theorem status_always_known (query_of : string -> gmap string (list string))
    (dicts : list pydict) (app_id : option string) (host : string)
    (cookies logging : bool) (m0 : machine) (ops : list op) :
  construct dicts app_id host cookies logging = (Returned tt, m0) ->
  Forall (fun m => status_known (this m)) (boundaries query_of ops m0).
Proof.
  intros Hnew.
  assert (H0 : status_known (this m0)).
  { destruct (construct_returns _ _ _ _ _ _ Hnew) as (_ & ->). by left. }
  clear Hnew. revert m0 H0.
  induction ops as [|o ops IH]; intros m0 H0; simpl; constructor; try done.
  apply IH. unfold status_known in *. unfold step.
  destruct o as [h cb|net cb|net cb|net p params cb|ev cb|ev cb]; simpl.
  - destruct (connect_frame query_of h cb m0) as (_ & _ & [-> | [-> | ->]]); by eauto.
  - pose proof (get_status_frame net cb m0) as (_ & _ & Hst).
    unfold M_bind. destruct (get_status net cb m0) as [[?|?] ?]; simpl in *;
      destruct Hst as [-> | [-> | ->]]; by eauto.
  - destruct (truthy (_app_id (this m0))) eqn:Hid.
    + destruct (logout_run net cb m0 Hid) as (rq & ->). by left.
    + unfold logout. exec. by rewrite Hid.
  - pose proof (api_this net p params cb m0) as Hthis.
    unfold M_bind. destruct (api net p params cb m0) as [[?|?] ?]; simpl in *;
      destruct Hthis as [-> | ->]; by eauto.
  - done.
  - unfold Event_unbind. exec.
    by destruct (GeniEvent.unbind ev cb (Event (this m0))).
Qed.

(** X27.  The methods of the client, [connect], [get_status], [logout]
    and [api], leave the subscriber registry as it is; only [bind] and
    [unbind] change it. *)
Theorem methods_keep_registry (query_of : string -> gmap string (list string))
    (o : op) (m : machine) :
  is_registry_op o = false ->
  Event (this (step query_of m o)) = Event (this m).
Proof.
  intros Hop. unfold step.
  destruct o as [h cb|net cb|net cb|net p params cb|ev cb|ev cb]; try done; simpl.
  - by destruct (connect_frame query_of h cb m) as (_ & -> & _).
  - pose proof (get_status_frame net cb m) as (_ & Hev & _).
    unfold M_bind. by destruct (get_status net cb m) as [[?|?] ?].
  - destruct (truthy (_app_id (this m))) eqn:Hid.
    + by destruct (logout_run net cb m Hid) as (rq & ->).
    + unfold logout. exec. by rewrite Hid.
  - pose proof (api_this net p params cb m) as Hthis.
    unfold M_bind. destruct (api net p params cb m) as [[?|?] ?]; simpl in *;
      by destruct Hthis as [-> | ->].
Qed.

(** X28.  The configuration of a client never changes: at every
    operation boundary of every program the application identifier, the
    host and the cookie and logging flags are those the client was
    constructed with, and the identifier is not empty. *)
Theorem configuration_is_fixed (query_of : string -> gmap string (list string))
    (dicts : list pydict) (app_id : option string) (host : string)
    (cookies logging : bool) (m0 : machine) (ops : list op) :
  construct dicts app_id host cookies logging = (Returned tt, m0) ->
  truthy app_id = true /\
  Forall (fun m => _app_id (this m) = app_id /\ _host (this m) = host /\
                   _cookies (this m) = cookies /\ _logging (this m) = logging)
    (boundaries query_of ops m0).
Proof.
  intros Hnew.
  destruct (construct_returns _ _ _ _ _ _ Hnew) as (Htruthy & Hm0).
  split; [done|].
  assert (H0 : _app_id (this m0) = app_id /\ _host (this m0) = host /\
               _cookies (this m0) = cookies /\ _logging (this m0) = logging).
  { by rewrite Hm0. }
  clear Hnew Hm0. revert m0 H0.
  induction ops as [|o ops IH]; intros m0 H0; simpl; constructor; try done.
  apply IH. destruct (step_config query_of o m0) as (-> & -> & -> & ->). done.
Qed.

(** X29.  The caller's dictionaries are written by [api] alone, and by
    an [api] call only the dictionary it is passed: any other operation,
    and an [api] call with other parameters, leaves a dictionary of the
    caller as it is. *)
Theorem only_api_writes_params (query_of : string -> gmap string (list string))
    (o : op) (m : machine) (r : ref) (d : pydict) :
  heap m !! r = Some d ->
  passes_dict o r = false ->
  heap (step query_of m o) !! r = Some d.
Proof.
  intros Hd Hop. unfold step.
  destruct o as [h cb|net cb|net cb|net p params cb|ev cb|ev cb]; simpl.
  - by destruct (connect_frame query_of h cb m) as (-> & _).
  - pose proof (get_status_frame net cb m) as (Hheap & _).
    unfold M_bind. destruct (get_status net cb m) as [[?|?] ?]; by apply Hheap.
  - destruct (truthy (_app_id (this m))) eqn:Hid.
    + by destruct (logout_run net cb m Hid) as (rq & ->).
    + unfold logout. exec. by rewrite Hid.
  - assert (Hframe : heap (snd (api net p params cb m)) !! r = Some d).
    { apply api_heap_frame; [done|]. left. intros ->. simpl in Hop.
      by rewrite bool_decide_eq_true_2 in Hop. }
    unfold M_bind. by destruct (api net p params cb m) as [[?|?] ?].
  - done.
  - unfold Event_unbind. exec.
    by destruct (GeniEvent.unbind ev cb (Event (this m))).
Qed.

(** ** The example script *)

(** X30.  [examples/basic_usage.py], run against a browser: whatever
    port the listener gets and whatever arrives on it, as long as it is
    not a request accepted with the method spelled [get] (a browser's is
    [GET]), the script never sees a login.  The listener answers an
    accepted request with 501 and the error page (no page to a [HEAD]),
    and a refused one with the library's error; [on_status_change] is not
    called at all, and [auth_callback] is called once, with
    [{'status': 'unknown'}], a result without an ['error'] entry; the
    client ends without a token and with the one subscriber. *)
Theorem basic_usage_never_connects (query_of : string -> gmap string (list string))
    (h : handshake) :
  command (inbound h) <> "get" ->
  basic_usage query_of h =
    (Returned tt,
     {| this :=
          {| _app_id := Some "your_app_id_here"; _host := "https://www.geni.com";
             _cookies := false; _logging := false; _access_token := None;
             _status := "unknown";
             Event := one_event "auth:statusChange" [on_status_change] |};
        heap := [];
        trace :=
          ([Listening (port h);
            BrowserOpened
              (authorize_url "https://www.geni.com" "your_app_id_here" (port h))] ++
           match inbound h with
           | Accepted c _ =>
               SentHeaders 501 ::
               if bool_decide (c = "HEAD") then [] else [SentErrorPage 501]
           | Refused c code => error_answer c code
           | NoRequest => []
           end ++
           [Called auth_callback [PDict {[ "status" := PStr "unknown" ]}]])%list |}).
Proof.
  intros Hcmd. unfold basic_usage, __init__, Event_bind. exec.
  match goal with |- context [connect query_of h ?cb ?m] =>
    rewrite (connect_handshake query_of h cb m "your_app_id_here" eq_refl
               ltac:(discriminate) eq_refl)
  end.
  cbv zeta. rewrite handle_request_run, bool_decide_eq_false_2 by done.
  unfold extend, with_this. simpl. do 3 f_equal.
  destruct (inbound h) as [c p|c code|]; [|done..].
  unfold error_answer. simpl. by case_bool_decide.
Qed.

(** ** The further properties on the example client *)

Lemma bind_appends_witness :
  "f" <> "e" /\
  GeniEvent.subscribers "e" (GeniEvent.bind "e" 3 example_registry) = Some [1; 2; 1; 3] /\
  GeniEvent.subscribers "f" (GeniEvent.bind "e" 3 example_registry) = None.
Proof.
  split; [discriminate|].
  exact (bind_appends "e" "f" 3 example_registry ltac:(discriminate)).
Defined.

Lemma unbind_event_clears_witness :
  "f" <> "e" /\
  exists self',
    GeniEvent.unbind "e" None example_registry = Returned self' /\
    GeniEvent.subscribers "e" self' = None /\
    GeniEvent.trigger "e" [PStr "x"] self' = [].
Proof.
  split; [discriminate|].
  destruct (unbind_event_clears "e" "f" [PStr "x"] example_registry ltac:(discriminate))
    as (self' & H1 & H2 & _ & H4 & _).
  by exists self'.
Defined.

Lemma unbind_removes_first_witness :
  GeniEvent.subscribers "e" example_registry = Some ([1] ++ 2 :: [1])%list /\
  (2 ∉ [1]) /\
  "f" <> "e" /\
  exists self',
    GeniEvent.unbind "e" (Some 2) example_registry = Returned self' /\
    GeniEvent.subscribers "e" self' = Some [1; 1].
Proof.
  assert (Hnotin : 2 ∉ [1]).
  { intros Hin. apply list_elem_of_singleton in Hin. discriminate. }
  split; [reflexivity|]. split; [exact Hnotin|]. split; [discriminate|].
  destruct (unbind_removes_first "e" "f" 2 [1] [1] example_registry eq_refl Hnotin
              ltac:(discriminate)) as (self' & H1 & H2 & _).
  by exists self'.
Defined.

Lemma trigger_after_bind_witness :
  "f" <> "e" /\
  GeniEvent.trigger "e" [PStr "x"] (GeniEvent.bind "e" 3 example_registry)
    = [Called 1 [PStr "x"]; Called 2 [PStr "x"]; Called 1 [PStr "x"];
       Called 3 [PStr "x"]].
Proof.
  split; [discriminate|].
  exact (proj1 (trigger_after_bind "e" "f" 3 [PStr "x"] example_registry
                  ltac:(discriminate))).
Defined.

Lemma set_status_notifies_witness :
  _status (this subscribed_client) <> "authorized" /\
  GeniEvent.subscribers "auth:statusChange" (Event (this subscribed_client)) = Some [1] /\
  _set_status "authorized" subscribed_client =
    (Returned tt,
     {| this := with_status "authorized" (this subscribed_client);
        heap := heap subscribed_client;
        trace := (trace subscribed_client ++ [Called 1 [PStr "authorized"]])%list |}).
Proof.
  split; [discriminate|]. split; [reflexivity|].
  apply (set_status_notifies "authorized" [1] subscribed_client);
    [discriminate | reflexivity].
Defined.

Lemma get_status_offline_witness :
  truthy (_access_token (this subscribed_client)) = false /\
  fst (get_status service_down (Some 2) subscribed_client)
    = Returned (PDict (status_dict "unknown" None)) /\
  requests_of (since subscribed_client
                 (snd (get_status service_down (Some 2) subscribed_client))) = [].
Proof.
  split; [reflexivity|].
  destruct (get_status_offline service_down (Some 2) subscribed_client)
    as (H1 & _ & _ & H4); [reflexivity|].
  by split.
Defined.

Lemma api_sends_one_request_witness :
  popped_method (Some 0) authorized_client = PStr "post" /\
  is_ascii "post" = true /\
  exists rest,
    since authorized_client
      (snd (api service_answers "/profile" (Some 0) None authorized_client))
    = Requested
        {| rq_method := "POST";
           rq_url := "https://www.geni.com/api/profile";
           rq_params := None;
           rq_json := Some {[ "access_token" := PStr "XYZ";
                              "fields" := PStr "name" ]} |} :: rest /\
    requests_of rest = [].
Proof.
  split; [reflexivity|]. split; [reflexivity|].
  apply (api_sends_one_request service_answers "/profile" (Some 0) None
           authorized_client "post"); reflexivity.
Defined.

Lemma api_leaves_other_dicts_witness :
  heap authorized_client !! 1 = Some {[ "method" := PInt 5 ]} /\
  (Some 0 <> Some 1 \/ ({[ "method" := PInt 5 ]} : pydict) = ∅) /\
  heap (snd (api service_answers "/profile" (Some 0) None authorized_client)) !! 1
    = Some {[ "method" := PInt 5 ]}.
Proof.
  split; [reflexivity|]. split; [left; discriminate|].
  apply api_leaves_other_dicts; [reflexivity | left; discriminate].
Defined.




Lemma get_status_valid_token_witness :
  _access_token (this authorized_client) = Some "XYZ" /\
  "XYZ" <> "" /\
  service_answers (liveness_request authorized_client)
    = Response (Decoded (PDict {[ "id" := PStr "profile-1" ]})) /\
  ({[ "id" := PStr "profile-1" ]} : pydict) !! "error" = None /\
  fst (get_status service_answers (Some 2) authorized_client)
    = Returned (PDict (status_dict "authorized" (Some "XYZ"))) /\
  this (snd (get_status service_answers (Some 2) authorized_client))
    = with_status "authorized" (this authorized_client).
Proof.
  split; [reflexivity|]. split; [discriminate|]. split; [reflexivity|].
  split; [reflexivity|].
  destruct (get_status_valid_token service_answers (Some 2) authorized_client "XYZ"
              {[ "id" := PStr "profile-1" ]})
    as (_ & H1 & H2 & _); [reflexivity | discriminate | reflexivity | reflexivity |].
  by split.
Defined.

Lemma get_status_error_clears_token_witness :
  truthy (_access_token (this authorized_client)) = true /\
  service_says (PDict {[ "error" := PDict {[ "type" := PStr "ApiException" ]} ]})
    (liveness_request authorized_client)
    = Response (Decoded
        (PDict {[ "error" := PDict {[ "type" := PStr "ApiException" ]} ]})) /\
  ({[ "error" := PDict {[ "type" := PStr "ApiException" ]} ]} : pydict) !! "error"
    = Some (PDict {[ "type" := PStr "ApiException" ]}) /\
  PDict {[ "type" := PStr "ApiException" ]} <> PDict ∅ /\
  let r := get_status
             (service_says
                (PDict {[ "error" := PDict {[ "type" := PStr "ApiException" ]} ]}))
             None authorized_client in
  fst r = Returned (PDict (status_dict "unknown" None)) /\
  _access_token (this (snd r)) = None /\
  _status (this (snd r)) = "unknown".
Proof.
  assert (Hne : PDict {[ "type" := PStr "ApiException" ]} <> PDict ∅).
  { discriminate. }
  split; [reflexivity|]. split; [reflexivity|]. split; [reflexivity|].
  split; [exact Hne|].
  apply (get_status_error_clears_token
           (service_says (PDict {[ "error" := PDict {[ "type" := PStr "ApiException" ]} ]}))
           None authorized_client
           {[ "error" := PDict {[ "type" := PStr "ApiException" ]} ]}
           (PDict {[ "type" := PStr "ApiException" ]}));
    [reflexivity | reflexivity | reflexivity | exact Hne].
Defined.

Lemma get_status_transport_failure_witness :
  truthy (_access_token (this authorized_client)) = true /\
  failure_of (service_down (liveness_request authorized_client))
    = Some (RequestException "Connection refused") /\
  fst (get_status service_down None authorized_client)
    = Returned (PDict (status_dict "unknown" None)) /\
  this (snd (get_status service_down None authorized_client))
    = with_status "unknown" (with_access_token None (this authorized_client)).
Proof.
  split; [reflexivity|]. split; [reflexivity|].
  apply (get_status_transport_failure service_down None authorized_client
           (RequestException "Connection refused")); reflexivity.
Defined.

Lemma get_status_raises_on_plain_body_witness :
  truthy (_access_token (this authorized_client)) = true /\
  service_says (PList []) (liveness_request authorized_client)
    = Response (Decoded (PList [])) /\
  plain_body (PList []) = true /\
  fst (get_status (service_says (PList [])) (Some 2) authorized_client)
    = Raised (AttributeError "'list' object has no attribute 'get'") /\
  this (snd (get_status (service_says (PList [])) (Some 2) authorized_client))
    = this authorized_client.
Proof.
  split; [reflexivity|]. split; [reflexivity|]. split; [reflexivity|].
  destruct (get_status_raises_on_plain_body (service_says (PList [])) (Some 2)
              authorized_client (PList []))
    as (H1 & H2 & _); [reflexivity..|].
  by split.
Defined.

Lemma connect_authorizes_witness :
  _app_id (this subscribed_client) = Some "app" /\
  "app" <> "" /\
  truthy (_access_token (this subscribed_client)) = false /\
  inbound lowercase_redirect = Accepted "get" "/?access_token=XYZ" /\
  example_query "/?access_token=XYZ" !! "access_token" = Some ["XYZ"] /\
  connect example_query lowercase_redirect (Some 2) subscribed_client =
    (Returned tt,
     {| this := with_status "authorized"
                  (with_access_token (Some "XYZ") (this subscribed_client));
        heap := heap subscribed_client;
        trace := [Listening 8080;
                  BrowserOpened (authorize_url "https://www.geni.com" "app" 8080);
                  SentHeaders 200; SentBody close_page;
                  Called 1 [PStr "authorized"];
                  Called 2 [PDict {[ "status" := PStr "authorized";
                                     "access_token" := PStr "XYZ" ]}]] |}).
Proof.
  split; [reflexivity|]. split; [discriminate|]. split; [reflexivity|].
  split; [reflexivity|]. split; [reflexivity|].
  apply (connect_authorizes example_query lowercase_redirect (Some 2) subscribed_client
           "app" "/?access_token=XYZ" "XYZ" []);
    [reflexivity | discriminate | reflexivity..].
Defined.

Lemma connect_cancelled_witness :
  _app_id (this subscribed_client) = Some "app" /\
  "app" <> "" /\
  truthy (_access_token (this subscribed_client)) = false /\
  inbound cancelled_redirect = Accepted "get" "/?error=access_denied" /\
  example_query "/?error=access_denied" !! "access_token" = None /\
  connect example_query cancelled_redirect (Some 2) subscribed_client =
    (Returned tt,
     {| this := with_status "unknown" (this subscribed_client);
        heap := heap subscribed_client;
        trace := [Listening 8080;
                  BrowserOpened (authorize_url "https://www.geni.com" "app" 8080);
                  SentHeaders 200; SentBody close_page;
                  Called 2 [PDict {[ "status" := PStr "unknown";
                                     "error" := PStr "Authorization failed or was cancelled" ]}]] |}).
Proof.
  split; [reflexivity|]. split; [discriminate|]. split; [reflexivity|].
  split; [reflexivity|]. split; [reflexivity|].
  apply (connect_cancelled example_query cancelled_redirect (Some 2) subscribed_client
           "app" "/?error=access_denied");
    [reflexivity | discriminate | reflexivity..].
Defined.

Lemma connect_stores_token_iff_witness :
  truthy (_app_id (this subscribed_client)) = true /\
  truthy (_access_token (this subscribed_client)) = false /\
  fst (connect example_query browser_redirect (Some 2) subscribed_client) = Returned tt /\
  heap (snd (connect example_query browser_redirect (Some 2) subscribed_client))
    = heap subscribed_client.
Proof.
  split; [reflexivity|]. split; [reflexivity|].
  destruct (connect_stores_token_iff example_query browser_redirect (Some 2)
              subscribed_client) as (H1 & H2 & _); [reflexivity..|].
  by split.
Defined.

Lemma logout_effects_witness :
  truthy (_app_id (this authorized_client)) = true /\
  logout service_down (Some 2) authorized_client =
    (Raised (RequestException "Connection refused"),
     {| this := with_status "unknown" (with_access_token None (this authorized_client));
        heap := heap authorized_client;
        trace := (trace authorized_client ++
                  [Requested (logout_request (this authorized_client));
                   Called 1 [PStr "unknown"]; Called 2 []])%list |}).
Proof.
  split; [reflexivity|].
  apply (logout_effects service_down (Some 2) authorized_client). reflexivity.
Defined.

Lemma logout_twice_witness :
  truthy (_app_id (this authorized_client)) = true /\
  let m1 := snd (logout service_down None authorized_client) in
  this (snd (logout service_answers (Some 2) m1)) = this m1.
Proof.
  split; [reflexivity|].
  destruct (logout_twice service_down service_answers None (Some 2) authorized_client)
    as (H1 & _); [reflexivity|].
  exact H1.
Defined.

Lemma status_always_known_witness :
  construct example_dicts (Some "app") "https://www.geni.com" false false
    = (Returned tt, fresh_client) /\
  Forall (fun m => status_known (this m))
    (boundaries example_query example_program fresh_client).
Proof.
  split; [reflexivity|].
  apply (status_always_known example_query example_dicts (Some "app")
           "https://www.geni.com" false false).
  reflexivity.
Defined.

Lemma methods_keep_registry_witness :
  is_registry_op (Connect lowercase_redirect None) = false /\
  Event (this (step example_query subscribed_client (Connect lowercase_redirect None)))
    = Event (this subscribed_client).
Proof.
  split; [reflexivity|].
  apply methods_keep_registry. reflexivity.
Defined.

Lemma configuration_is_fixed_witness :
  construct example_dicts (Some "app") "https://www.geni.com" false false
    = (Returned tt, fresh_client) /\
  Forall (fun m => _app_id (this m) = Some "app" /\
                   _host (this m) = "https://www.geni.com" /\
                   _cookies (this m) = false /\ _logging (this m) = false)
    (boundaries example_query example_program fresh_client).
Proof.
  split; [reflexivity|].
  apply (configuration_is_fixed example_query example_dicts (Some "app")
           "https://www.geni.com" false false).
  reflexivity.
Defined.

Lemma only_api_writes_params_witness :
  heap authorized_client !! 1 = Some {[ "method" := PInt 5 ]} /\
  passes_dict (Api service_answers "/profile" (Some 0) None) 1 = false /\
  heap (step example_query authorized_client
          (Api service_answers "/profile" (Some 0) None)) !! 1
    = Some {[ "method" := PInt 5 ]}.
Proof.
  split; [reflexivity|]. split; [reflexivity|].
  apply only_api_writes_params; reflexivity.
Defined.

Lemma basic_usage_never_connects_witness :
  command (inbound browser_redirect) <> "get" /\
  fst (basic_usage example_query browser_redirect) = Returned tt /\
  trace (snd (basic_usage example_query browser_redirect)) =
    [Listening 8080;
     BrowserOpened
       (authorize_url "https://www.geni.com" "your_app_id_here" 8080);
     SentHeaders 501; SentErrorPage 501;
     Called auth_callback [PDict {[ "status" := PStr "unknown" ]}]].
Proof.
  split; [discriminate|].
  rewrite (basic_usage_never_connects example_query browser_redirect);
    [by split | discriminate].
Defined.
